(** * Front API client: a shallow embedding of [src/front-client.ts] and of the
    [getConversations] tool of [src/index.ts], with the properties of the
    request orchestration stated and proved over it.

    Conventions of the embedding.
    - A JavaScript string is a [string] (a sequence of bytes, read as UTF-8).
    - A JavaScript number, where the code uses one ([limit], an HTTP status,
      [created_at]), is an integer [Z]; [Number.prototype.toString] is its
      decimal rendering.
    - An optional property ([q?: string]) is an [option]; the JavaScript test
      [if (x)] is [truthy]: an absent property, the empty string, the number
      zero and [false] are falsy.
    - A rejected promise / thrown [Error] is [Err e]; [await] of it leaves the
      enclosing async function with the same error ([bindR]).
    - Objects that the code shares by reference (the [params] filter object,
      the client instance) live in a store and are named by their index. *)

From Stdlib Require Import ZArith String Ascii List Bool Lia DecimalString.
From stdpp Require Import base list gmap.

Import ListNotations.
Local Open Scope string_scope.
Local Open Scope Z_scope.
Set Warnings "-register-all".

(** ** JavaScript values used by the client *)

(** [x || y] on optional strings: the first truthy operand. *)
Definition truthy_string (s : option string) : bool :=
  match s with
  | Some EmptyString => false
  | Some _ => true
  | None => false
  end.

Definition truthy_number (n : option Z) : bool :=
  match n with
  | Some 0 => false
  | Some _ => true
  | None => false
  end.

Definition truthy_bool (b : option bool) : bool :=
  match b with
  | Some true => true
  | _ => false
  end.

(** [Number.prototype.toString] on an integer. *)
Definition number_toString (n : Z) : string :=
  NilZero.string_of_int (Z.to_int n).

(** Parsed JSON.  An object is the list of its own properties in enumeration
    order. *)
Inductive JsonValue : Type :=
  | JNull
  | JBool (b : bool)
  | JNum (n : Z)
  | JStr (s : string)
  | JArr (items : list JsonValue)
  | JObj (props : list (string * JsonValue)).

(** [if (data)] on a JSON value. *)
Definition truthy_json (d : option JsonValue) : bool :=
  match d with
  | None => false
  | Some JNull => false
  | Some (JBool b) => b
  | Some (JNum n) => negb (n =? 0)
  | Some (JStr s) => truthy_string (Some s)
  | Some (JArr _) => true
  | Some (JObj _) => true
  end.

(** The double-quote character, as a one-character string. *)
Definition dquote : string := String (ascii_of_N 34) EmptyString.

Definition hex_digit (upper : bool) (n : N) : ascii :=
  if (n <? 10)%N then ascii_of_N (48 + n)
  else if upper then ascii_of_N (55 + n) else ascii_of_N (87 + n).

(** [QuoteJSONString]: the escapes of [JSON.stringify] for one code unit. *)
Definition json_escape_char (c : ascii) : string :=
  let n := N_of_ascii c in
  if (n =? 34)%N then "\" ++ dquote
  else if (n =? 92)%N then "\\"
  else if (n =? 8)%N then "\b"
  else if (n =? 9)%N then "\t"
  else if (n =? 10)%N then "\n"
  else if (n =? 12)%N then "\f"
  else if (n =? 13)%N then "\r"
  else if (n <? 32)%N then
    "\u00" ++ String (hex_digit false (n / 16)) (String (hex_digit false (n mod 16)) EmptyString)
  else String c EmptyString.

Fixpoint json_escape (s : string) : string :=
  match s with
  | EmptyString => EmptyString
  | String c rest => json_escape_char c ++ json_escape rest
  end.

Definition json_quote (s : string) : string :=
  dquote ++ json_escape s ++ dquote.

(** [JSON.stringify] of a parsed JSON value (no indentation). *)
Fixpoint JSON_stringify (v : JsonValue) : string :=
  match v with
  | JNull => "null"
  | JBool true => "true"
  | JBool false => "false"
  | JNum n => number_toString n
  | JStr s => json_quote s
  | JArr items => "[" ++ String.concat "," (List.map JSON_stringify items) ++ "]"
  | JObj props =>
      "{" ++ String.concat ","
               (List.map (fun kv => json_quote (fst kv) ++ ":" ++ JSON_stringify (snd kv)) props)
          ++ "}"
  end.

(** ** URLSearchParams *)

Module URLSearchParams.

(** The list of name-value pairs of a [URLSearchParams] object. *)
Definition t : Type := list (string * string).

Definition empty : t := [].

Definition append (name value : string) (l : t) : t := (l ++ [(name, value)])%list.

Definition remove_name (name : string) (l : t) : t :=
  List.filter (fun p => negb (String.eqb (fst p) name)) l.

(** [set]: the first pair called [name] takes the value and the later ones
    are removed; with no such pair the pair is appended. *)
Fixpoint set (name value : string) (l : t) : t :=
  match l with
  | [] => [(name, value)]
  | (n, v) :: rest =>
      if String.eqb n name then (name, value) :: remove_name name rest
      else (n, v) :: set name value rest
  end.

Definition getAll (name : string) (l : t) : list string :=
  List.map snd (List.filter (fun p => String.eqb (fst p) name) l).

Definition has (name : string) (l : t) : bool :=
  List.existsb (fun p => String.eqb (fst p) name) l.

(** The application/x-www-form-urlencoded byte serializer: a space is a
    plus sign, ASCII alphanumerics and [*-._] stay, every other byte is
    percent-encoded with upper-case hexadecimal digits. *)
Definition encode_byte (c : ascii) : string :=
  let n := N_of_ascii c in
  if (n =? 32)%N then "+"
  else if ((n =? 42) || (n =? 45) || (n =? 46) || (n =? 95)
           || ((48 <=? n) && (n <=? 57))
           || ((65 <=? n) && (n <=? 90))
           || ((97 <=? n) && (n <=? 122)))%N
  then String c EmptyString
  else String "%" (String (hex_digit true (n / 16))
                     (String (hex_digit true (n mod 16)) EmptyString)).

Fixpoint encode (s : string) : string :=
  match s with
  | EmptyString => EmptyString
  | String c rest => encode_byte c ++ encode rest
  end.

Definition toString (l : t) : string :=
  String.concat "&" (List.map (fun p => encode (fst p) ++ "=" ++ encode (snd p)) l).

End URLSearchParams.

(** ** Data model *)

(** A thrown [Error] / the reason of a rejected promise. *)
Record Error : Type := { message : string }.

(** The settled state of a promise: fulfilled with a value or rejected. *)
Inductive Result (A : Type) : Type :=
  | Ok (a : A)
  | Err (e : Error).
Arguments Ok {A} a.
Arguments Err {A} e.

Module Conversation.
Record t : Type := { id : string; subject : string; status : string }.
End Conversation.

Module Message.
Record t : Type := {
  id : string;
  type : string;
  is_inbound : bool;
  created_at : Z;
  blurb : string;
  body : string;
  text : string
}.
End Message.

(** The paginated envelope [{ _pagination: { next? }, _links: { self }, _results }]. *)
Record Envelope (A : Type) : Type := {
  _pagination : option string;
  _links : string;
  _results : list A
}.
Arguments _pagination {A} e.
Arguments _links {A} e.
Arguments _results {A} e.

(** The status constraint ['open' | 'archived' | 'deleted' | 'spam']. *)
Inductive Status : Type := open | archived | deleted | spam.

Definition status_string (st : Status) : string :=
  match st with
  | open => "open"
  | archived => "archived"
  | deleted => "deleted"
  | spam => "spam"
  end.

(** The filter object [params] of [listInboxConversations] and
    [listInboxMessages] ([end] is a keyword here, hence [end_]). *)
Record Params : Type := {
  q : option string;
  page_token : option string;
  limit : option Z;
  start : option string;
  end_ : option string;
  status : option Status;
  onlyUnresolved : option bool
}.

(** The object literal [{}]. *)
Definition empty_params : Params :=
  {| q := None; page_token := None; limit := None; start := None;
     end_ := None; status := None; onlyUnresolved := None |}.

(** The assignment [params.status = v]. *)
Definition set_status (v : Status) (p : Params) : Params :=
  {| q := q p; page_token := page_token p; limit := limit p; start := start p;
     end_ := end_ p; status := Some v; onlyUnresolved := onlyUnresolved p |}.

(** The assignment [params.q = v]. *)
Definition set_q (v : string) (p : Params) : Params :=
  {| q := Some v; page_token := page_token p; limit := limit p; start := start p;
     end_ := end_ p; status := status p; onlyUnresolved := onlyUnresolved p |}.

(** The assignment [params.onlyUnresolved = v]. *)
Definition set_onlyUnresolved (v : bool) (p : Params) : Params :=
  {| q := q p; page_token := page_token p; limit := limit p; start := start p;
     end_ := end_ p; status := status p; onlyUnresolved := Some v |}.

(** The object literal [{ limit }]. *)
Definition params_of_limit (n : Z) : Params :=
  {| q := None; page_token := None; limit := Some n; start := None;
     end_ := None; status := None; onlyUnresolved := None |}.

Module FrontClientOptions.
Record t : Type := { token : option string; baseUrl : option string }.
End FrontClientOptions.

(** The fields of a [FrontClient] instance. *)
Record FrontClient : Type := { token : string; baseUrl : string }.

(** What [fetch(url, options)] is called with. *)
Record Request : Type := {
  url : string;
  method : string;
  headers : list (string * string);
  body : option string
}.

Module Response.
(** A [node-fetch] response: [json] is what [response.json()] settles to,
    a rejection when the body is not JSON. *)
Record t : Type := {
  status : Z;
  statusText : string;
  json : Result JsonValue
}.

(** [response.ok]: the status is in the range 200-299. *)
Definition ok (r : t) : bool := (200 <=? status r) && (status r <? 300).
End Response.

(** The world outside the client, for one run.
    - [network n req]: what the [n]-th call of [fetch] (counting from 0),
      made with [req], settles to; [Err] is a network-level failure.
    - [settle_order]: the order in which the promises given to [Promise.all]
      settle, as indices into that array.
    - [env]: [process.env].
    - [as_conversations], [as_messages]: the type assertion
      [response.json() as Promise<T>], the parsed body seen at the type the
      caller declares.
    - [toISOString ms]: [new Date(ms).toISOString()]. *)
Record World : Type := {
  network : nat -> Request -> Result Response.t;
  settle_order : list nat;
  env : string -> option string;
  as_conversations : JsonValue -> Envelope Conversation.t;
  as_messages : JsonValue -> Envelope Message.t;
  toISOString : Z -> string
}.

(** ** State and effects *)

(** References to the objects the code shares: an index into a store. *)
Definition ref : Type := nat.

#[global] Instance Params_inhabited : Inhabited Params := populate empty_params.
#[global] Instance FrontClient_inhabited : Inhabited FrontClient :=
  populate {| token := EmptyString; baseUrl := EmptyString |}.

(** The state a run acts on: the calls of [fetch] made so far, oldest first,
    the client instances and the filter objects. *)
Record State : Type := {
  requests : list Request;
  clients : gmap ref FrontClient;
  objects : gmap ref Params
}.

Definition initial_state : State :=
  {| requests := []; clients := ∅; objects := ∅ |}.

(** A computation: a state transformer that yields a value. *)
Definition M (A : Type) : Type := State -> A * State.

Definition ret {A : Type} (a : A) : M A := fun s => (a, s).

Definition bind {A B : Type} (c : M A) (k : A -> M B) : M B :=
  fun s => let (a, s') := c s in k a s'.

(** [await] inside an async function: a rejection leaves the function. *)
Definition bindR {A B : Type} (c : M (Result A)) (k : A -> M (Result B)) : M (Result B) :=
  bind c (fun r => match r with
                   | Ok a => k a
                   | Err e => ret (Err e)
                   end).

(** [throw new Error(msg)] *)
Definition throw {A : Type} (msg : string) : M (Result A) :=
  ret (Err {| message := msg |}).

Notation "'let!' x ':=' c 'in' k" := (bind c (fun x => k))
  (at level 10, x name, c at level 100, k at level 200).
Notation "'await!' x ':=' c 'in' k" := (bindR c (fun x => k))
  (at level 10, x name, c at level 100, k at level 200).

Definition read_client (this : ref) : M FrontClient :=
  fun s => (clients s !!! this, s).

Definition read_object (r : ref) : M Params :=
  fun s => (objects s !!! r, s).

Definition write_object (r : ref) (p : Params) : M unit :=
  fun s => (tt, {| requests := requests s; clients := clients s;
                   objects := <[r := p]> (objects s) |}).

(** A new object: a reference that no object of the store has. *)
Definition alloc_object (p : Params) : M ref :=
  fun s => let r := fresh (dom (objects s)) in
           (r, {| requests := requests s; clients := clients s;
                  objects := <[r := p]> (objects s) |}).

Definition alloc_client (c : FrontClient) : M ref :=
  fun s => let r := fresh (dom (clients s)) in
           (r, {| requests := requests s; clients := <[r := c]> (clients s);
                  objects := objects s |}).

(** A default parameter [params = {}]: an omitted argument is a new empty
    object. *)
Definition default_params (params : option ref) : M ref :=
  match params with
  | Some r => ret r
  | None => alloc_object empty_params
  end.

(** [array.map(f)] where [f] has effects: the calls happen left to right. *)
Fixpoint mapM {A B : Type} (f : A -> M B) (l : list A) : M (list B) :=
  match l with
  | [] => ret []
  | a :: rest => let! b := f a in let! bs := mapM f rest in ret (b :: bs)
  end.

(** ** Promise.all *)

(** Every promise fulfilled: the values in the order of the array; otherwise
    the leftmost rejection. *)
Fixpoint sequence_results {A : Type} (ps : list (Result A)) : Result (list A) :=
  match ps with
  | [] => Ok []
  | Err e :: _ => Err e
  | Ok a :: rest =>
      match sequence_results rest with
      | Ok l => Ok (a :: l)
      | Err e => Err e
      end
  end.

(** The reason of the first promise to reject, following the order in which
    the promises settle. *)
Fixpoint first_rejection {A : Type} (order : list nat) (ps : list (Result A)) : option Error :=
  match order with
  | [] => None
  | i :: later =>
      match ps !! i with
      | Some (Err e) => Some e
      | _ => first_rejection later ps
      end
  end.

(** [await Promise.all(ps)]: the array of the values when every promise is
    fulfilled, else the rejection of the promise that rejected first (the
    leftmost one when [order] names none). *)
Definition promise_all {A : Type} (order : list nat) (ps : list (Result A)) : Result (list A) :=
  match sequence_results ps with
  | Ok l => Ok l
  | Err e0 =>
      match first_rejection order ps with
      | Some e => Err e
      | None => Err e0
      end
  end.

(** ** The client ([src/front-client.ts]) *)

(** [a || b] where [a] is an optional string and [b] a string. *)
Definition or_string (a : option string) (b : string) : string :=
  match a with
  | Some s => if truthy_string a then s else b
  | None => b
  end.

Definition default_baseUrl : string := "https://api2.frontapp.com".

Definition missing_token_message : string :=
  "Front API token not provided and not found in environment variable: FRONT_API_TOKEN".

(** [method === 'POST' || method === 'PUT' || method === 'PATCH'] *)
Definition allows_body (method' : string) : bool :=
  String.eqb method' "POST" || String.eqb method' "PUT" || String.eqb method' "PATCH".

(** The query parameters that [listInboxConversations] composes from the
    filter object. *)
Definition append_string (name : string) (v : option string)
    (queryParams : URLSearchParams.t) : URLSearchParams.t :=
  match v with
  | Some s => if truthy_string v then URLSearchParams.append name s queryParams
              else queryParams
  | None => queryParams
  end.

Definition append_number (name : string) (v : option Z)
    (queryParams : URLSearchParams.t) : URLSearchParams.t :=
  match v with
  | Some n => if truthy_number v
              then URLSearchParams.append name (number_toString n) queryParams
              else queryParams
  | None => queryParams
  end.

Definition statusQuery (st : Status) : string :=
  "status:" ++ dquote ++ status_string st ++ dquote.

Definition conversations_queryParams (params : Params) : URLSearchParams.t :=
  let queryParams := URLSearchParams.empty in
  (* Basic query parameters *)
  let queryParams := append_string "q" (q params) queryParams in
  let queryParams := append_string "page_token" (page_token params) queryParams in
  let queryParams := append_number "limit" (limit params) queryParams in
  let queryParams := append_string "start" (start params) queryParams in
  let queryParams := append_string "end" (end_ params) queryParams in
  (* Filter by status *)
  match status params with
  | Some st =>
      match q params with
      | Some text' =>
          if truthy_string (q params)
          then URLSearchParams.set "q" (text' ++ " AND " ++ statusQuery st) queryParams
          else URLSearchParams.append "q" (statusQuery st) queryParams
      | None => URLSearchParams.append "q" (statusQuery st) queryParams
      end
  | None => queryParams
  end.

Definition conversations_path (inboxId : string) (params : Params) : string :=
  let queryString := URLSearchParams.toString (conversations_queryParams params) in
  "/inboxes/" ++ inboxId ++ "/conversations"
  ++ (if truthy_string (Some queryString) then "?" ++ queryString else EmptyString).

Definition messages_path (conversationId : string) : string :=
  "/conversations/" ++ conversationId ++ "/messages".

(** The value [listInboxMessages] resolves with. *)
Record InboxMessages : Type := {
  conversations : list Conversation.t;
  messages : list Message.t
}.

(** The first half of [request]: the URL, the headers and the body that
    [fetch] is called with. *)
Definition request_of (self : FrontClient) (method' path : string)
    (data : option JsonValue) : Request :=
  let url' := baseUrl self ++ path in
  let headers' :=
    [ ("Authorization", "Bearer " ++ token self);
      ("Content-Type", "application/json");
      ("Accept", "application/json") ] in
  let body' :=
    match data with
    | Some d => if truthy_json data && allows_body method'
                then Some (JSON_stringify d) else None
    | None => None
    end in
  {| url := url'; method := method'; headers := headers'; body := body' |}.

(** The second half of [request]: what the promise settles to once the
    response is there. *)
Definition response_result {T : Type} (view : JsonValue -> T)
    (response : Response.t) : Result T :=
  if negb (Response.ok response) then
    let errorBody :=
      match Response.json response with
      | Ok parsed => parsed
      | Err _ => JObj []
      end in
    Err {| message :=
             "Front API request failed: " ++ number_toString (Response.status response)
             ++ " " ++ Response.statusText response
             ++ " - " ++ JSON_stringify errorBody |}
  else
    match Response.json response with
    | Ok parsed => Ok (view parsed)
    | Err e => Err e
    end.

Section Client.
Variable w : World.

(** [fetch(url, options)]: the call is recorded and the network answers. *)
Definition fetch (req : Request) : M (Result Response.t) :=
  fun s => (network w (length (requests s)) req,
            {| requests := requests s ++ [req]; clients := clients s;
               objects := objects s |}).

(** [new FrontClient(options)] *)
Definition constructor (options : FrontClientOptions.t) : M (Result ref) :=
  let token' :=
    or_string (FrontClientOptions.token options)
      (or_string (env w "FRONT_API_TOKEN") EmptyString) in
  if negb (truthy_string (Some token')) then throw missing_token_message
  else
    let baseUrl' := or_string (FrontClientOptions.baseUrl options) default_baseUrl in
    let! this := alloc_client {| token := token'; baseUrl := baseUrl' |} in
    ret (Ok this).

(** [this.request<T>(method, path, data)] *)
Definition request {T : Type} (view : JsonValue -> T) (this : ref)
    (method' path : string) (data : option JsonValue) : M (Result T) :=
  let! self := read_client this in
  await! response := fetch (request_of self method' path data) in
  ret (response_result view response).

(** [this.listInboxConversations(inboxId, params = {})] *)
Definition listInboxConversations (this : ref) (inboxId : string)
    (params : option ref) : M (Result (Envelope Conversation.t)) :=
  let! params' := default_params params in
  let! filter' := read_object params' in
  request (as_conversations w) this "GET" (conversations_path inboxId filter') None.

(** [this.listConversationMessages(conversationId)] *)
Definition listConversationMessages (this : ref) (conversationId : string)
    : M (Result (Envelope Message.t)) :=
  request (as_messages w) this "GET" (messages_path conversationId) None.

(** [this.listInboxMessages(inboxId, params = {})] *)
Definition listInboxMessages (this : ref) (inboxId : string)
    (params : option ref) : M (Result InboxMessages) :=
  let! params' := default_params params in
  (* Set status to 'open' if onlyUnresolved is true *)
  let! filter' := read_object params' in
  let! _ := (if truthy_bool (onlyUnresolved filter')
             then write_object params' (set_status open filter')
             else ret tt) in
  (* First, get the list of conversations from the inbox *)
  await! conversationsResponse := listInboxConversations this inboxId (Some params') in
  (* Get messages for each conversation *)
  let! messagesPromises :=
    mapM (fun conversation => listConversationMessages this (Conversation.id conversation))
         (_results conversationsResponse) in
  await! messagesResponses := ret (promise_all (settle_order w) messagesPromises) in
  (* Flatten all messages into a single array *)
  let allMessages := List.flat_map (fun response => _results response) messagesResponses in
  ret (Ok {| conversations := _results conversationsResponse;
             messages := allMessages |}).

End Client.

(** ** The [getConversations] tool ([src/index.ts]) *)

Module GetConversations.

(** The arguments of a tool call as the agent sends them. *)
Record Input : Type := {
  inboxId : option string;
  limit : option Z;
  query : option string;
  onlyUnresolved : option bool;
  status : option string
}.

(** The arguments after the schema has parsed them: the defaults are
    filled in and [status] is one of the enumerated values. *)
Record Args : Type := {
  inboxId' : option string;
  limit' : Z;
  query' : option string;
  onlyUnresolved' : bool;
  status' : option Status
}.

(** Why the schema refuses an input (the codes of zod's issues). *)
Inductive Issue : Type := too_small | too_big | invalid_enum_value.

Inductive Parsed (A : Type) : Type :=
  | Valid (a : A)
  | Invalid (issue : Issue).
Arguments Valid {A} a.
Arguments Invalid {A} issue.

(** [z.number().min(1).max(100).default(10)] *)
Definition parse_limit (v : option Z) : Parsed Z :=
  match v with
  | None => Valid 10
  | Some n => if n <? 1 then Invalid too_small
              else if 100 <? n then Invalid too_big
              else Valid n
  end.

(** [z.boolean().default(false)] *)
Definition parse_onlyUnresolved (v : option bool) : bool :=
  match v with
  | None => false
  | Some b => b
  end.

(** [z.enum(['open', 'archived', 'deleted', 'spam']).optional()] *)
Definition parse_status (v : option string) : Parsed (option Status) :=
  match v with
  | None => Valid None
  | Some s =>
      if String.eqb s "open" then Valid (Some open)
      else if String.eqb s "archived" then Valid (Some archived)
      else if String.eqb s "deleted" then Valid (Some deleted)
      else if String.eqb s "spam" then Valid (Some spam)
      else Invalid invalid_enum_value
  end.

(** The schema of the tool applied to an input. *)
Definition parse (input : Input) : Parsed Args :=
  match parse_limit (limit input) with
  | Invalid issue => Invalid issue
  | Valid limit0 =>
      match parse_status (status input) with
      | Invalid issue => Invalid issue
      | Valid status0 =>
          Valid {| inboxId' := inboxId input;
                   limit' := limit0;
                   query' := query input;
                   onlyUnresolved' := parse_onlyUnresolved (onlyUnresolved input);
                   status' := status0 |}
      end
  end.

(** One item of the [content] of a tool result. *)
Record ContentItem : Type := { type : string; text : string }.

Record ToolResult : Type := { content : list ContentItem }.

(** What a tool call comes to: the server refuses the arguments and does
    not run the handler, or the handler runs and its promise settles. *)
Inductive Outcome : Type :=
  | Rejected (issue : Issue)
  | Handled (r : Result ToolResult).

Section Handler.
Variable w : World.

(** [new Date(ms).toISOString()]: a time value beyond 8.64e15 ms from the
    epoch is an invalid date and raises a [RangeError]. *)
Definition date_toISOString (ms : Z) : Result string :=
  if Z.abs ms <=? 8640000000000000 then Ok (toISOString w ms)
  else Err {| message := "Invalid time value" |}.

Definition message_json (msg : Message.t) : Result JsonValue :=
  match date_toISOString (Message.created_at msg * 1000) with
  | Ok createdAt =>
      Ok (JObj [ ("id", JStr (Message.id msg));
                 ("type", JStr (Message.type msg));
                 ("isInbound", JBool (Message.is_inbound msg));
                 ("createdAt", JStr createdAt);
                 ("text", JStr (Message.text msg));
                 ("blurb", JStr (Message.blurb msg)) ])
  | Err e => Err e
  end.

(** The text of the tool result. *)
Definition result_text (result : InboxMessages) : Result string :=
  match sequence_results (List.map message_json (messages result)) with
  | Ok msgs =>
      Ok (JSON_stringify
            (JObj [ ("conversations",
                     JNum (Z.of_nat (length (conversations result))));
                    ("messages", JArr msgs) ]))
  | Err e => Err e
  end.

(** The [try] block of the handler. *)
Definition handler_try (client : ref) (resolvedInboxId : string) (args : Args)
    : M (Result ToolResult) :=
  (* Set up parameters for fetching inbox messages *)
  let! params := alloc_object (params_of_limit (limit' args)) in
  let! _ :=
    (match query' args with
     | Some query0 =>
         if truthy_string (query' args)
         then let! p := read_object params in write_object params (set_q query0 p)
         else ret tt
     | None => ret tt
     end) in
  let! _ :=
    (if onlyUnresolved' args
     then let! p := read_object params in
          write_object params (set_onlyUnresolved true p)
     else match status' args with
          | Some st =>
              let! p := read_object params in
              write_object params (set_status st p)
          | None => ret tt
          end) in
  await! result := listInboxMessages w client resolvedInboxId (Some params) in
  (* Transform API response to match MCP format with content property *)
  await! text' := ret (result_text result) in
  ret (Ok {| content := [ {| type := "text"; text := text' |} ] |}).

(** The handler of the tool, on parsed arguments. *)
Definition handler (args : Args) : M (Result ToolResult) :=
  (* Get API token from environment variables *)
  let token' := env w "FRONT_API_TOKEN" in
  if negb (truthy_string token') then
    throw "FRONT_API_TOKEN environment variable is required"
  else
    (* Get inboxId from params or from environment variable *)
    let resolvedInboxId :=
      if truthy_string (inboxId' args) then inboxId' args
      else env w "DEFAULT_INBOX_ID" in
    match resolvedInboxId with
    | Some resolved =>
        if negb (truthy_string resolvedInboxId) then
          throw "inboxId parameter or DEFAULT_INBOX_ID environment variable is required"
        else
          (* Create FrontClient instance *)
          await! client :=
            constructor w {| FrontClientOptions.token := token';
                             FrontClientOptions.baseUrl := None |} in
          let! outcome := handler_try client resolved args in
          match outcome with
          | Ok r => ret (Ok r)
          | Err error => throw ("Front API error: " ++ message error)
          end
    | None =>
        throw "inboxId parameter or DEFAULT_INBOX_ID environment variable is required"
    end.

(** A call of the tool: the arguments go through the schema first. *)
Definition getConversations (input : Input) : M Outcome :=
  match parse input with
  | Invalid issue => ret (Rejected issue)
  | Valid args => let! r := handler args in ret (Handled r)
  end.

End Handler.

End GetConversations.

(** ** Notions used to state the properties *)

(** [sub] occurs in [s]. *)
Definition contains (sub s : string) : Prop :=
  exists before after, s = before ++ sub ++ after.

(** The state once [req] has been given to [fetch]. *)
Definition log (req : Request) (s : State) : State :=
  {| requests := requests s ++ [req]; clients := clients s; objects := objects s |}.

(** The state once the object at [r] has been assigned [p]. *)
Definition store (r : ref) (p : Params) (s : State) : State :=
  {| requests := requests s; clients := clients s; objects := <[r := p]> (objects s) |}.

(** What a request settles to, from what [fetch] settles to. *)
Definition settle {T : Type} (view : JsonValue -> T) (r : Result Response.t) : Result T :=
  match r with
  | Ok response => response_result view response
  | Err e => Err e
  end.

(** What the conversation listing of [inboxId] under [filter] settles to when
    it is the [n]-th call of [fetch] and the client's fields are [self]. *)
Definition conversation_outcome (w : World) (self : FrontClient) (n : nat)
    (inboxId : string) (filter' : Params) : Result (Envelope Conversation.t) :=
  settle (as_conversations w)
    (network w n (request_of self "GET" (conversations_path inboxId filter') None)).

(** What the message listing of a conversation settles to when it is the
    [n]-th call of [fetch]. *)
Definition message_outcome (w : World) (self : FrontClient) (n : nat)
    (conversationId : string) : Result (Envelope Message.t) :=
  settle (as_messages w)
    (network w n (request_of self "GET" (messages_path conversationId) None)).

(** What the message listings of the conversations of [page] settle to when
    they are the calls of [fetch] from the [n]-th on, in the order of [page]. *)
Definition message_outcomes (w : World) (self : FrontClient) (n : nat)
    (page : list Conversation.t) : list (Result (Envelope Message.t)) :=
  imap (fun i conversation =>
          message_outcome w self (n + i) (Conversation.id conversation)) page.

(** The requests of those message listings. *)
Definition message_requests (self : FrontClient) (page : list Conversation.t)
    : list Request :=
  List.map (fun conversation =>
              request_of self "GET" (messages_path (Conversation.id conversation)) None)
           page.

(** The state after the first step of [listInboxMessages] on the filter
    object at [r]. *)
Definition prepare (r : ref) (s : State) : State :=
  if truthy_bool (onlyUnresolved (objects s !!! r))
  then store r (set_status open (objects s !!! r)) s
  else s.

(** The filter that a call is given: the object at the reference, or the
    empty object of the default parameter. *)
Definition filter_of (params : option ref) (s : State) : Params :=
  match params with
  | Some r => objects s !!! r
  | None => empty_params
  end.

(** The filter [p] with another [status] property (or none). *)
Definition with_status (st : option Status) (p : Params) : Params :=
  {| q := q p; page_token := page_token p; limit := limit p; start := start p;
     end_ := end_ p; status := st; onlyUnresolved := onlyUnresolved p |}.

(** The calls of [fetch] made between the states [s] and [s']. *)
Definition issued (s s' : State) : list Request :=
  drop (length (requests s)) (requests s').

(** The filter after the first step of [listInboxMessages]. *)
Definition effective_filter (p : Params) : Params :=
  if truthy_bool (onlyUnresolved p) then set_status open p else p.

(** A request that carries the bearer token [tok] and goes to a URL under
    [base]. *)
Definition authorized (tok base : string) (req : Request) : Prop :=
  In ("Authorization", "Bearer " ++ tok) (headers req)
  /\ String.prefix base (url req) = true.

(** ** A concrete inbox, for the examples

    Inbox [inb_1] has the conversations [c1], [c2], [c3].  The bodies are
    JSON arrays of identifiers, which the two views below read as a page of
    conversations and as a page of messages. *)

Definition demo_conversation (i : string) : Conversation.t :=
  {| Conversation.id := i; Conversation.subject := "subject of " ++ i;
     Conversation.status := "open" |}.

Definition demo_message (i : string) : Message.t :=
  {| Message.id := i; Message.type := "email"; Message.is_inbound := true;
     Message.created_at := 1700000000; Message.blurb := "blurb of " ++ i;
     Message.body := "body of " ++ i; Message.text := "text of " ++ i |}.

Definition demo_ids (parsed : JsonValue) : list string :=
  match parsed with
  | JArr items =>
      List.flat_map (fun item => match item with JStr i => [i] | _ => [] end) items
  | _ => []
  end.

Definition demo_page {A : Type} (make : string -> A) (parsed : JsonValue) : Envelope A :=
  {| _pagination := None; _links := "self"; _results := List.map make (demo_ids parsed) |}.

Definition demo_ok (parsed : JsonValue) : Result Response.t :=
  Ok {| Response.status := 200; Response.statusText := "OK";
        Response.json := Ok parsed |}.

Definition demo_not_found : Response.t :=
  {| Response.status := 404; Response.statusText := "Not Found";
     Response.json := Ok (JObj [("message", JStr "not found")]) |}.

(** The first call is answered with the page of conversations, the next
    three with the messages of [c1], [c2] and [c3]; [c2_fails] makes the
    listing of [c2] a 404. *)
Definition demo_network (c2_fails : bool) (n : nat) (req : Request) : Result Response.t :=
  match n with
  | 0%nat => demo_ok (JArr [JStr "c1"; JStr "c2"; JStr "c3"])
  | 1%nat => demo_ok (JArr [JStr "m1"; JStr "m2"])
  | 2%nat => if c2_fails then Ok demo_not_found else demo_ok (JArr [JStr "m3"])
  | 3%nat => demo_ok (JArr [JStr "m4"; JStr "m5"])
  | _ => Err {| message := "request to " ++ url req ++ " failed, reason: ECONNREFUSED" |}
  end.

Definition demo_world (c2_fails : bool) : World :=
  {| network := demo_network c2_fails;
     settle_order := [2%nat; 0%nat; 1%nat];
     env := fun _ => None;
     as_conversations := demo_page demo_conversation;
     as_messages := demo_page demo_message;
     toISOString := fun ms => number_toString ms |}.

Definition demo_client : FrontClient :=
  {| token := "secret"; baseUrl := default_baseUrl |}.

(** The caller asks for the unresolved conversations and also supplies a
    status. *)
Definition demo_filter : Params :=
  {| q := Some "invoice"; page_token := None; limit := Some 2; start := None;
     end_ := None; status := Some archived; onlyUnresolved := Some true |}.

(** Client 0 and filter object 0 exist; nothing has been requested yet. *)
Definition demo_state : State :=
  {| requests := []; clients := {[ 0%nat := demo_client ]};
     objects := {[ 0%nat := demo_filter ]} |}.

(** What the orchestration returns for that inbox when every call succeeds. *)
Definition demo_result : InboxMessages :=
  {| conversations := List.map demo_conversation ["c1"; "c2"; "c3"];
     messages := List.map demo_message ["m1"; "m2"; "m3"; "m4"; "m5"] |}.

(** The state in which two requests have already been made. *)
Definition demo_state_later : State :=
  log (request_of demo_client "GET" (messages_path "c1") None)
    (log (request_of demo_client "GET" (conversations_path "inb_1" demo_filter) None)
       demo_state).

Definition demo_options : FrontClientOptions.t :=
  {| FrontClientOptions.token := Some "secret"; FrontClientOptions.baseUrl := None |}.

Definition demo_no_options : FrontClientOptions.t :=
  {| FrontClientOptions.token := None; FrontClientOptions.baseUrl := None |}.

(** A call of the tool that asks for 101 conversations. *)
Definition demo_input : GetConversations.Input :=
  {| GetConversations.inboxId := Some "inb_1";
     GetConversations.limit := Some 101;
     GetConversations.query := None;
     GetConversations.onlyUnresolved := Some true;
     GetConversations.status := None |}.

(** A request as the three public operations make it: a [GET] without a
    body, with the three headers of [request]. *)
Definition plain_get (self : FrontClient) (req : Request) : Prop :=
  method req = "GET"
  /\ body req = None
  /\ headers req = [ ("Authorization", "Bearer " ++ token self);
                     ("Content-Type", "application/json");
                     ("Accept", "application/json") ].

(** The error that [request] raises for [demo_not_found]. *)
Definition demo_not_found_error : Error :=
  {| message := "Front API request failed: 404 Not Found - {" ++ dquote ++ "message"
                ++ dquote ++ ":" ++ dquote ++ "not found" ++ dquote ++ "}" |}.

(** The state in which four requests have already been made: the demo
    network refuses every later one. *)
Definition demo_state_exhausted : State :=
  log (request_of demo_client "GET" (messages_path "c3") None)
    (log (request_of demo_client "GET" (messages_path "c2") None) demo_state_later).

(** Every character of [s] satisfies [f]. *)
Fixpoint string_forall (f : ascii -> bool) (s : string) : bool :=
  match s with
  | EmptyString => true
  | String c rest => f c && string_forall f rest
  end.

(** How many times the character [c] occurs in [s]. *)
Fixpoint occurrences (c : ascii) (s : string) : nat :=
  match s with
  | EmptyString => 0%nat
  | String c' rest => ((if Ascii.eqb c c' then 1 else 0) + occurrences c rest)%nat
  end.

(** The characters of an encoded name or value: ASCII letters and digits,
    [*], [-], [.], [_], the plus sign of a space and the percent sign of an
    escape. *)
Definition encoded_char (c : ascii) : bool :=
  let n := N_of_ascii c in
  ((n =? 42) || (n =? 45) || (n =? 46) || (n =? 95)
   || ((48 <=? n) && (n <=? 57))
   || ((65 <=? n) && (n <=? 90))
   || ((97 <=? n) && (n <=? 122))
   || (n =? 43) || (n =? 37))%N.

(** The characters of a query string: those, and the separators [&] and [=]. *)
Definition query_char (c : ascii) : bool :=
  (encoded_char c || (N_of_ascii c =? 38) || (N_of_ascii c =? 61))%N.

(** The filter object that the handler of the tool has built when it calls
    the client. *)
Definition tool_filter (args : GetConversations.Args) : Params :=
  {| q := if truthy_string (GetConversations.query' args)
          then GetConversations.query' args else None;
     page_token := None;
     limit := Some (GetConversations.limit' args);
     start := None;
     end_ := None;
     status := if GetConversations.onlyUnresolved' args then None
               else GetConversations.status' args;
     onlyUnresolved := if GetConversations.onlyUnresolved' args then Some true
                       else None |}.

(** The inbox that the handler asks for: the argument, or else the
    environment variable. *)
Definition resolved_inbox (w : World) (args : GetConversations.Args) : option string :=
  if truthy_string (GetConversations.inboxId' args) then GetConversations.inboxId' args
  else env w "DEFAULT_INBOX_ID".

(** The state in which the handler calls the client: a new client with the
    token [tok] and the default base URL, and the new filter object. *)
Definition tool_state (tok : string) (args : GetConversations.Args) (s : State) : State :=
  {| requests := requests s;
     clients := <[fresh (dom (clients s)) :=
                    {| token := tok; baseUrl := default_baseUrl |}]> (clients s);
     objects := <[fresh (dom (objects s)) := tool_filter args]> (objects s) |}.

(** The entry of a message in the payload of the tool. *)
Definition tool_message (w : World) (msg : Message.t) : JsonValue :=
  JObj [ ("id", JStr (Message.id msg));
         ("type", JStr (Message.type msg));
         ("isInbound", JBool (Message.is_inbound msg));
         ("createdAt", JStr (toISOString w (Message.created_at msg * 1000)));
         ("text", JStr (Message.text msg));
         ("blurb", JStr (Message.blurb msg)) ].

(** A timestamp in seconds whose date JavaScript can represent. *)
Definition representable_date (msg : Message.t) : Prop :=
  Z.abs (Message.created_at msg * 1000) <= 8640000000000000.

(** How the handler reports the error of the client. *)
Definition tool_error (e : Error) : Error :=
  {| message := "Front API error: " ++ message e |}.

(** The demo world with the environment of the README: a token and a
    default inbox. *)
Definition demo_tool_world (c2_fails : bool) : World :=
  {| network := demo_network c2_fails;
     settle_order := [2%nat; 0%nat; 1%nat];
     env := fun name =>
              if String.eqb name "FRONT_API_TOKEN" then Some "secret"
              else if String.eqb name "DEFAULT_INBOX_ID" then Some "inb_1"
              else None;
     as_conversations := demo_page demo_conversation;
     as_messages := demo_page demo_message;
     toISOString := fun ms => number_toString ms |}.

(** A call of the tool for the unresolved conversations about invoices of
    the default inbox, with a status that the handler is to ignore. *)
Definition demo_tool_input : GetConversations.Input :=
  {| GetConversations.inboxId := None;
     GetConversations.limit := Some 2;
     GetConversations.query := Some "invoice";
     GetConversations.onlyUnresolved := Some true;
     GetConversations.status := Some "archived" |}.

Definition demo_tool_args : GetConversations.Args :=
  {| GetConversations.inboxId' := None;
     GetConversations.limit' := 2;
     GetConversations.query' := Some "invoice";
     GetConversations.onlyUnresolved' := true;
     GetConversations.status' := Some archived |}.

(** * Properties *)

(** ** Query composition *)

Lemma truthy_string_nonempty (s : string) :
  s <> EmptyString -> truthy_string (Some s) = true.
Proof. destruct s; [congruence | reflexivity]. Qed.

Ltac split_filter_fields :=
  repeat match goal with
         | v : option string |- _ => destruct v as [[|? ?]|]
         | v : option Z |- _ => destruct v as [[|?|?]|]
         end.

(** C2. The [q] parameter that [listInboxConversations] composes: with a
    free-text query and a status it is the text, [" AND "] and the status
    fragment; with a status only it is the fragment; with a text only it is
    the text.  There is one [q] parameter and no [status] parameter. *)
Theorem listInboxConversations_q_parameter :
  forall (text' : string) (pt : option string) (l : option Z) (s e : option string)
         (u : option bool) (st : Status),
    text' <> EmptyString ->
    URLSearchParams.getAll "q"
      (conversations_queryParams
         {| q := Some text'; page_token := pt; limit := l; start := s; end_ := e;
            status := Some st; onlyUnresolved := u |})
    = [text' ++ " AND " ++ "status:" ++ dquote ++ status_string st ++ dquote]
    /\ URLSearchParams.getAll "q"
         (conversations_queryParams
            {| q := None; page_token := pt; limit := l; start := s; end_ := e;
               status := Some st; onlyUnresolved := u |})
       = ["status:" ++ dquote ++ status_string st ++ dquote]
    /\ URLSearchParams.getAll "q"
         (conversations_queryParams
            {| q := Some text'; page_token := pt; limit := l; start := s; end_ := e;
               status := None; onlyUnresolved := u |})
       = [text']
    /\ (forall q0 st0,
          URLSearchParams.has "status"
            (conversations_queryParams
               {| q := q0; page_token := pt; limit := l; start := s; end_ := e;
                  status := st0; onlyUnresolved := u |}) = false).
Proof.
  intros text' pt l s e u st Htext.
  destruct text' as [|c rest]; [congruence|].
  repeat split; [ | | | intros q0 [st0|] ];
    split_filter_fields; reflexivity.
Qed.

(** With a status, the [q] parameter is single and ends with the status
    fragment. *)
Lemma queryParams_q_with_status (p : Params) (st : Status) :
  status p = Some st ->
  URLSearchParams.getAll "q" (conversations_queryParams p)
  = [ match q p with
      | Some text' => if truthy_string (q p)
                      then text' ++ " AND " ++ statusQuery st
                      else statusQuery st
      | None => statusQuery st
      end ].
Proof.
  destruct p as [q0 pt l s e st0 u]; simpl. intros ->.
  split_filter_fields; reflexivity.
Qed.

(** ** How the operations run *)

Section Runs.
Variable w : World.

Lemma request_run {T : Type} (view : JsonValue -> T) (this : ref)
    (method' path : string) (data : option JsonValue) (s : State) :
  request w view this method' path data s
  = (settle view
       (network w (length (requests s))
          (request_of (clients s !!! this) method' path data)),
     log (request_of (clients s !!! this) method' path data) s).
Proof.
  unfold request, bindR, bind, read_client, fetch, ret, settle, log; simpl.
  destruct (network w _ _); reflexivity.
Qed.

Lemma listInboxConversations_run (this : ref) (inboxId : string) (r : ref) (s : State) :
  listInboxConversations w this inboxId (Some r) s
  = (conversation_outcome w (clients s !!! this) (length (requests s)) inboxId
       (objects s !!! r),
     log (request_of (clients s !!! this) "GET"
            (conversations_path inboxId (objects s !!! r)) None) s).
Proof.
  unfold listInboxConversations, default_params, read_object, bind, ret; simpl.
  apply request_run.
Qed.

Lemma listInboxConversations_default (this : ref) (inboxId : string) (s : State) :
  listInboxConversations w this inboxId None s
  = listInboxConversations w this inboxId (Some (fresh (dom (objects s))))
      (store (fresh (dom (objects s))) empty_params s).
Proof. reflexivity. Qed.

Lemma listConversationMessages_run (this : ref) (conversationId : string) (s : State) :
  listConversationMessages w this conversationId s
  = (message_outcome w (clients s !!! this) (length (requests s)) conversationId,
     log (request_of (clients s !!! this) "GET" (messages_path conversationId) None) s).
Proof. apply request_run. Qed.

(** The fan-out: one call of [fetch] per conversation, in the order of the
    page, whatever the earlier ones settle to. *)
Lemma fan_out_run (this : ref) (page : list Conversation.t) (s : State) :
  mapM (fun conversation =>
          listConversationMessages w this (Conversation.id conversation)) page s
  = (message_outcomes w (clients s !!! this) (length (requests s)) page,
     {| requests := requests s ++ message_requests (clients s !!! this) page;
        clients := clients s;
        objects := objects s |}).
Proof.
  unfold message_outcomes, message_requests.
  revert s; induction page as [|c page IH]; intros s.
  - simpl. unfold ret. destruct s; simpl. rewrite app_nil_r. reflexivity.
  - cbn [mapM]. unfold bind at 1. rewrite listConversationMessages_run.
    unfold bind at 1. rewrite IH. unfold ret, log; cbn [requests clients objects].
    rewrite imap_cons. cbn [List.map]. f_equal.
    + f_equal.
      * f_equal. lia.
      * apply imap_ext. intros i x _. unfold compose.
        rewrite length_app. cbn [length]. f_equal. lia.
    + rewrite <- app_assoc. reflexivity.
Qed.

Lemma prepare_clients (r : ref) (s : State) : clients (prepare r s) = clients s.
Proof. unfold prepare. destruct (truthy_bool _); reflexivity. Qed.

Lemma prepare_requests (r : ref) (s : State) : requests (prepare r s) = requests s.
Proof. unfold prepare. destruct (truthy_bool _); reflexivity. Qed.

Lemma prepare_filter (r : ref) (s : State) :
  objects (prepare r s) !!! r = effective_filter (objects s !!! r).
Proof.
  unfold prepare, effective_filter. destruct (truthy_bool _); [|reflexivity].
  simpl. apply lookup_total_insert_eq.
Qed.

Lemma listInboxMessages_run (this : ref) (inboxId : string) (r : ref) (s : State) :
  let self := clients s !!! this in
  let n := length (requests s) in
  let filter' := effective_filter (objects s !!! r) in
  let conversations_request :=
    request_of self "GET" (conversations_path inboxId filter') None in
  listInboxMessages w this inboxId (Some r) s
  = match conversation_outcome w self n inboxId filter' with
    | Err e => (Err e, log conversations_request (prepare r s))
    | Ok page =>
        (match promise_all (settle_order w)
                 (message_outcomes w self (S n) (_results page)) with
         | Ok responses =>
             Ok {| conversations := _results page;
                   messages := List.flat_map (fun response => _results response)
                                 responses |}
         | Err e => Err e
         end,
         {| requests := requests s ++ conversations_request
                        :: message_requests self (_results page);
            clients := clients s;
            objects := objects (prepare r s) |})
    end.
Proof.
  intros self n filter' conversations_request.
  unfold listInboxMessages, default_params.
  unfold bind at 1, ret at 1. unfold bind at 1, read_object at 1.
  unfold bind at 1.
  assert (Hprep :
    (if truthy_bool (onlyUnresolved (objects s !!! r))
     then write_object r (set_status open (objects s !!! r))
     else ret tt) s = (tt, prepare r s)).
  { unfold prepare. destruct (truthy_bool _); reflexivity. }
  rewrite Hprep. unfold bindR at 1, bind at 1.
  rewrite listInboxConversations_run.
  rewrite prepare_clients, prepare_requests, prepare_filter.
  fold self n filter' conversations_request.
  destruct (conversation_outcome w self n inboxId filter') as [page|e];
    [|reflexivity].
  unfold bind at 1. rewrite fan_out_run.
  unfold log; cbn [requests clients objects].
  rewrite prepare_clients, prepare_requests. fold self.
  rewrite length_app. cbn [length].
  replace (length (requests s) + 1)%nat with (S n) by (unfold n; lia).
  unfold bindR, bind, ret.
  rewrite <- app_assoc. cbn [app].
  destruct (promise_all _ _); reflexivity.
Qed.

Lemma listInboxMessages_default (this : ref) (inboxId : string) (s : State) :
  listInboxMessages w this inboxId None s
  = listInboxMessages w this inboxId (Some (fresh (dom (objects s))))
      (store (fresh (dom (objects s))) empty_params s).
Proof. reflexivity. Qed.

End Runs.

(** ** Promise.all *)

Section PromiseAll.
Context {A : Type}.
Implicit Types (ps : list (Result A)) (l : list A) (order : list nat).

Lemma sequence_results_Ok ps l :
  sequence_results ps = Ok l <-> ps = List.map Ok l.
Proof.
  revert l; induction ps as [|[a|e] ps IH]; intros l; simpl.
  - split.
    + intros [= <-]. reflexivity.
    + destruct l; [reflexivity | discriminate].
  - destruct (sequence_results ps) as [l'|e'] eqn:E.
    + split.
      * intros [= <-]. simpl. f_equal. apply IH. reflexivity.
      * destruct l as [|a' l'']; [discriminate|]. intros [= -> Hps].
        apply IH in Hps. congruence.
    + split; [discriminate|].
      destruct l as [|a' l'']; [discriminate|]. intros [= -> Hps].
      apply IH in Hps. discriminate.
  - split; [discriminate|]. destruct l; discriminate.
Qed.

Lemma sequence_results_Err ps e :
  sequence_results ps = Err e -> exists i, ps !! i = Some (Err e).
Proof.
  induction ps as [|[a|e'] ps IH]; simpl.
  - discriminate.
  - destruct (sequence_results ps) as [l'|e''] eqn:E; [discriminate|].
    intros [= ->]. destruct (IH eq_refl) as [i Hi]. exists (S i). exact Hi.
  - intros [= ->]. exists 0%nat. reflexivity.
Qed.

Lemma sequence_results_rejected ps i e :
  ps !! i = Some (Err e) -> exists e', sequence_results ps = Err e'.
Proof.
  revert i; induction ps as [|[a|e0] ps IH]; intros i; simpl.
  - rewrite lookup_nil. discriminate.
  - destruct i as [|i]; [discriminate|]. simpl. intros Hi.
    destruct (IH _ Hi) as [e' ->]. eauto.
  - eauto.
Qed.

Lemma first_rejection_Some order ps e :
  first_rejection order ps = Some e -> exists i, ps !! i = Some (Err e).
Proof.
  induction order as [|i order IH]; simpl; [discriminate|].
  destruct (ps !! i) as [[a|e']|] eqn:E; auto.
  intros [= ->]. eauto.
Qed.

(** Fulfilled exactly when every promise is, with the values in order. *)
Lemma promise_all_Ok order ps l :
  promise_all order ps = Ok l <-> ps = List.map Ok l.
Proof.
  unfold promise_all. rewrite <- sequence_results_Ok.
  destruct (sequence_results ps) as [l'|e]; [reflexivity|].
  destruct (first_rejection order ps); split; discriminate.
Qed.

(** A rejection is the rejection of one of the promises. *)
Lemma promise_all_Err order ps e :
  promise_all order ps = Err e -> exists i, ps !! i = Some (Err e).
Proof.
  unfold promise_all.
  destruct (sequence_results ps) as [l'|e0] eqn:E; [discriminate|].
  destruct (first_rejection order ps) as [e1|] eqn:F.
  - intros [= <-]. eapply first_rejection_Some; eauto.
  - intros [= <-]. apply sequence_results_Err; assumption.
Qed.

(** One rejected promise rejects the whole. *)
Lemma promise_all_rejected order ps i e :
  ps !! i = Some (Err e) -> exists e', promise_all order ps = Err e'.
Proof.
  intros Hi. unfold promise_all.
  destruct (sequence_results_rejected _ _ _ Hi) as [e0 ->].
  destruct (first_rejection order ps); eauto.
Qed.

End PromiseAll.

Lemma message_outcomes_lookup (w : World) (self : FrontClient) (n i : nat)
    (page : list Conversation.t) :
  message_outcomes w self n page !! i
  = (fun conversation =>
       message_outcome w self (n + i) (Conversation.id conversation)) <$> page !! i.
Proof. unfold message_outcomes. apply list_lookup_imap. Qed.

Lemma message_outcomes_length (w : World) (self : FrontClient) (n : nat)
    (page : list Conversation.t) :
  length (message_outcomes w self n page) = length page.
Proof. unfold message_outcomes. apply length_imap. Qed.

(** ** Orchestration *)

Section Orchestration.
Variable w : World.

(** What [listInboxMessages] settles to, in terms of what its calls settle
    to. *)
Lemma listInboxMessages_outcome (this : ref) (inboxId : string)
    (params : option ref) (s : State) :
  fst (listInboxMessages w this inboxId params s)
  = match conversation_outcome w (clients s !!! this) (length (requests s)) inboxId
            (effective_filter (filter_of params s)) with
    | Err e => Err e
    | Ok page =>
        match promise_all (settle_order w)
                (message_outcomes w (clients s !!! this) (S (length (requests s)))
                   (_results page)) with
        | Ok responses =>
            Ok {| conversations := _results page;
                  messages := List.flat_map (fun response => _results response)
                                responses |}
        | Err e => Err e
        end
    end.
Proof.
  destruct params as [r|].
  - rewrite listInboxMessages_run. simpl.
    destruct (conversation_outcome _ _ _ _ _); reflexivity.
  - rewrite listInboxMessages_default, listInboxMessages_run.
    cbn [store clients requests objects filter_of].
    rewrite lookup_total_insert_eq.
    destruct (conversation_outcome _ _ _ _ _); reflexivity.
Qed.

(** The calls of [fetch] that [listInboxMessages] makes. *)
Lemma listInboxMessages_requests (this : ref) (inboxId : string)
    (params : option ref) (s : State) :
  requests (snd (listInboxMessages w this inboxId params s))
  = (requests s ++
     request_of (clients s !!! this) "GET"
       (conversations_path inboxId (effective_filter (filter_of params s))) None
     :: match conversation_outcome w (clients s !!! this) (length (requests s))
                inboxId (effective_filter (filter_of params s)) with
        | Ok page => message_requests (clients s !!! this) (_results page)
        | Err _ => []
        end)%list.
Proof.
  destruct params as [r|].
  - rewrite listInboxMessages_run. simpl.
    destruct (conversation_outcome _ _ _ _ _); simpl;
      rewrite ?prepare_requests; reflexivity.
  - rewrite listInboxMessages_default, listInboxMessages_run.
    cbn [store clients requests objects filter_of].
    rewrite lookup_total_insert_eq.
    destruct (conversation_outcome _ _ _ _ _); simpl;
      rewrite ?prepare_requests; reflexivity.
Qed.

Lemma flat_map_concat {A B : Type} (f : A -> list B) (l : list A) :
  List.flat_map f l = concat (List.map f l).
Proof. induction l as [|a l IH]; simpl; [reflexivity | now rewrite IH]. Qed.

(** C3. The messages that [listInboxMessages] returns are the message
    arrays of the conversations of the page, concatenated in the order of
    the page, each array in its own order; an empty page gives no
    message. *)
Theorem listInboxMessages_messages_in_page_order :
  forall (this : ref) (inboxId : string) (params : option ref) (s : State)
         (result : InboxMessages),
    fst (listInboxMessages w this inboxId params s) = Ok result ->
    exists responses : list (Envelope Message.t),
      length responses = length (conversations result)
      /\ (forall i conversation,
            conversations result !! i = Some conversation ->
            exists response,
              responses !! i = Some response
              /\ message_outcome w (clients s !!! this)
                   (S (length (requests s)) + i) (Conversation.id conversation)
                 = Ok response)
      /\ messages result = concat (List.map (fun response => _results response) responses)
      /\ (conversations result = [] -> messages result = []).
Proof.
  intros this inboxId params s result Hrun.
  rewrite listInboxMessages_outcome in Hrun.
  destruct (conversation_outcome _ _ _ _ _) as [page|e]; [|discriminate].
  destruct (promise_all _ _) as [responses|e] eqn:Hall; [|discriminate].
  injection Hrun as <-. cbn [conversations messages].
  apply promise_all_Ok in Hall.
  assert (Hlen : length responses = length (_results page)).
  { rewrite <- (message_outcomes_length w (clients s !!! this)
                  (S (length (requests s))) (_results page)).
    rewrite Hall. now rewrite length_map. }
  exists responses. split; [exact Hlen|]. split; [|split].
  - intros i conversation Hi.
    assert (Hlook := message_outcomes_lookup w (clients s !!! this)
                       (S (length (requests s))) i (_results page)).
    rewrite Hi, Hall in Hlook. cbn in Hlook.
    rewrite list_lookup_fmap in Hlook.
    destruct (responses !! i) as [response|]; [|discriminate].
    exists response. split; [reflexivity|]. cbn in Hlook |- *. congruence.
  - apply flat_map_concat.
  - intros Hempty. rewrite Hempty in Hlen. destruct responses; [reflexivity|discriminate].
Qed.


Lemma listInboxMessages_objects (this : ref) (inboxId : string) (r : ref) (s : State) :
  objects (snd (listInboxMessages w this inboxId (Some r) s)) = objects (prepare r s).
Proof.
  rewrite listInboxMessages_run. simpl.
  destruct (conversation_outcome _ _ _ _ _); reflexivity.
Qed.

(** C9. [listInboxMessages] writes into the filter object it is given: with
    a truthy [onlyUnresolved] the [status] of that very object is ["open"]
    after the call, whether the call succeeds or not; no other property of
    the object and no other object is changed. *)
Theorem listInboxMessages_mutates_filter :
  forall (this : ref) (inboxId : string) (r : ref) (s : State),
    let before := objects s !!! r in
    let s' := snd (listInboxMessages w this inboxId (Some r) s) in
    let after := objects s' !!! r in
    (truthy_bool (onlyUnresolved before) = true -> status after = Some open)
    /\ (truthy_bool (onlyUnresolved before) = false -> objects s' = objects s)
    /\ q after = q before
    /\ page_token after = page_token before
    /\ limit after = limit before
    /\ start after = start before
    /\ end_ after = end_ before
    /\ onlyUnresolved after = onlyUnresolved before
    /\ (forall r', r' <> r -> objects s' !! r' = objects s !! r').
Proof.
  intros this inboxId r s before s' after.
  assert (Hobj : objects s' = objects (prepare r s))
    by apply listInboxMessages_objects.
  assert (Hafter : after = effective_filter before).
  { unfold after. rewrite Hobj. apply prepare_filter. }
  unfold prepare in Hobj. fold before in Hobj.
  unfold effective_filter in Hafter.
  destruct (truthy_bool (onlyUnresolved before)) eqn:Htruthy.
  - rewrite Hafter. split; [reflexivity|]. split; [discriminate|].
    do 6 (split; [reflexivity|]).
    intros r' Hne. rewrite Hobj. simpl. apply lookup_insert_ne. congruence.
  - rewrite Hafter. split; [discriminate|]. split; [intros _; exact Hobj|].
    do 6 (split; [reflexivity|]).
    intros r' _. now rewrite Hobj.
Qed.

(** C1. With [onlyUnresolved] set, the conversation query that
    [listInboxMessages] makes is the query of the filter whose status is
    ["open"]: its request is the first one made, its [q] parameter ends with
    the fragment for ["open"], and the call does not depend on the status
    that the caller supplied. *)
Theorem listInboxMessages_onlyUnresolved_status_open :
  forall (this : ref) (inboxId : string) (r : ref) (s : State),
    truthy_bool (onlyUnresolved (objects s !!! r)) = true ->
    let supplied := objects s !!! r in
    let used := with_status (Some open) supplied in
    let run := listInboxMessages w this inboxId (Some r) s in
    requests (snd run) !! length (requests s)
    = Some (request_of (clients s !!! this) "GET" (conversations_path inboxId used) None)
    /\ URLSearchParams.getAll "q" (conversations_queryParams used)
       = [ match q supplied with
           | Some text' =>
               if truthy_string (q supplied)
               then text' ++ " AND " ++ "status:" ++ dquote ++ "open" ++ dquote
               else "status:" ++ dquote ++ "open" ++ dquote
           | None => "status:" ++ dquote ++ "open" ++ dquote
           end ]
    /\ (forall st : option Status,
          listInboxMessages w this inboxId (Some r) (store r (with_status st supplied) s)
          = listInboxMessages w this inboxId (Some r)
              (store r (with_status (Some open) supplied) s)).
Proof.
  intros this inboxId r s Htruthy supplied used run.
  split; [|split].
  - unfold run. rewrite listInboxMessages_requests.
    cbn [filter_of]. unfold effective_filter. rewrite Htruthy. fold supplied.
    change (set_status open supplied) with used.
    rewrite lookup_app_r by lia. now rewrite Nat.sub_diag.
  - apply (queryParams_q_with_status used open). reflexivity.
  - intros st. rewrite !listInboxMessages_run.
    cbn [store clients requests objects]. rewrite !lookup_total_insert_eq.
    unfold effective_filter, prepare. cbn [store clients requests objects].
    rewrite !lookup_total_insert_eq.
    cbn [with_status onlyUnresolved]. fold supplied in Htruthy. rewrite Htruthy.
    change (set_status open (with_status st supplied)) with used.
    change (set_status open (with_status (Some open) supplied)) with used.
    destruct (conversation_outcome _ _ _ _ _);
      unfold log, store; cbn [requests clients objects];
      rewrite !insert_insert_eq; reflexivity.
Qed.

End Orchestration.

(** ** Strings *)

Lemma append_assoc (a b c : string) : (a ++ b) ++ c = a ++ b ++ c.
Proof.
  induction a as [|x a IH]; [reflexivity|].
  change (String x ((a ++ b) ++ c) = String x (a ++ b ++ c)). now f_equal.
Qed.

Lemma append_nil_r (a : string) : a ++ EmptyString = a.
Proof.
  induction a as [|x a IH]; [reflexivity|].
  change (String x (a ++ EmptyString) = String x a). now f_equal.
Qed.

Lemma prefix_append (a b : string) : String.prefix a (a ++ b) = true.
Proof.
  induction a as [|x a IH].
  - destruct b; reflexivity.
  - change (String.prefix (String x a) (String x (a ++ b)) = true). simpl.
    destruct (ascii_dec x x); [exact IH | congruence].
Qed.

Lemma contains_refl (s : string) : contains s s.
Proof. exists EmptyString, EmptyString. simpl. now rewrite append_nil_r. Qed.

Lemma contains_append_l (sub s t : string) : contains sub s -> contains sub (s ++ t).
Proof.
  intros (before & after & ->). exists before, (after ++ t).
  now rewrite !append_assoc.
Qed.

Lemma contains_append_r (sub s t : string) : contains sub t -> contains sub (s ++ t).
Proof.
  intros (before & after & ->). exists (s ++ before), after.
  now rewrite !append_assoc.
Qed.

Create HintDb contains.
#[local] Hint Resolve contains_refl contains_append_l contains_append_r : contains.

(** ** Transport *)

Lemma response_result_failure {T : Type} (view : JsonValue -> T) (response : Response.t) :
  Response.ok response = false ->
  response_result view response
  = Err {| message :=
             "Front API request failed: " ++ number_toString (Response.status response)
             ++ " " ++ Response.statusText response ++ " - "
             ++ JSON_stringify (match Response.json response with
                                | Ok parsed => parsed
                                | Err _ => JObj []
                                end) |}.
Proof. intros Hok. unfold response_result. now rewrite Hok. Qed.

(** C5. The transport primitive on a response: a status outside 200-299 is
    a failure whose message has the status code, the status text and the
    serialized error body in it, the body being the empty object when it does
    not parse; a 404 with the body [{"message":"not found"}] gives a message
    with [404], the status text and [not found] in it; a status in 200-299
    gives the parsed body. *)
Theorem request_translates_response :
  forall (w : World) (T : Type) (view : JsonValue -> T) (this : ref)
         (method' path : string) (data : option JsonValue) (s : State)
         (response : Response.t),
    network w (length (requests s)) (request_of (clients s !!! this) method' path data)
    = Ok response ->
    let outcome := fst (request w view this method' path data s) in
    (Response.ok response = false ->
       exists description,
         outcome = Err {| message := description |}
         /\ contains (number_toString (Response.status response)) description
         /\ contains (Response.statusText response) description
         /\ (forall parsed, Response.json response = Ok parsed ->
                contains (JSON_stringify parsed) description)
         /\ (forall e, Response.json response = Err e ->
                contains (JSON_stringify (JObj [])) description))
    /\ (Response.status response = 404 ->
          Response.json response = Ok (JObj [("message", JStr "not found")]) ->
          exists description,
            outcome = Err {| message := description |}
            /\ contains "404" description
            /\ contains (Response.statusText response) description
            /\ contains "not found" description)
    /\ (Response.ok response = true ->
          forall parsed, Response.json response = Ok parsed -> outcome = Ok (view parsed)).
Proof.
  intros w T view this method' path data s response Hnet outcome.
  assert (Hout : outcome = response_result view response).
  { unfold outcome. rewrite request_run, Hnet. reflexivity. }
  split; [|split].
  - intros Hok. rewrite Hout, (response_result_failure view response Hok).
    eexists. split; [reflexivity|]. split; [|split; [|split]].
    + auto with contains.
    + auto 6 with contains.
    + intros parsed ->. auto 8 with contains.
    + intros e ->. auto 8 with contains.
  - intros Hstatus Hjson.
    assert (Hok : Response.ok response = false).
    { unfold Response.ok. rewrite Hstatus. reflexivity. }
    rewrite Hout, (response_result_failure view response Hok), Hstatus, Hjson.
    eexists. split; [reflexivity|]. split; [|split].
    + change (number_toString 404) with "404". auto with contains.
    + auto 6 with contains.
    + do 5 apply contains_append_r.
      exists ("{" ++ dquote ++ "message" ++ dquote ++ ":" ++ dquote), (dquote ++ "}").
      reflexivity.
  - intros Hok parsed Hjson. rewrite Hout. unfold response_result.
    now rewrite Hok, Hjson.
Qed.

(** ** Construction *)

Section Construction.
Variable w : World.

Lemma or_string_truthy (a : option string) (b : string) :
  truthy_string a = false -> or_string a b = b.
Proof. unfold or_string. destruct a as [x|]; [intros -> |]; reflexivity. Qed.

Lemma constructor_with_token (options : FrontClientOptions.t) (tok : string) (s : State) :
  FrontClientOptions.token options = Some tok ->
  tok <> EmptyString ->
  constructor w options s
  = (Ok (fresh (dom (clients s))),
     {| requests := requests s;
        clients :=
          <[fresh (dom (clients s)) :=
              {| token := tok;
                 baseUrl := or_string (FrontClientOptions.baseUrl options)
                              default_baseUrl |}]> (clients s);
        objects := objects s |}).
Proof.
  intros Htok Hne. unfold constructor, or_string at 1. rewrite Htok.
  destruct tok as [|c rest]; [congruence|]. reflexivity.
Qed.

Lemma listInboxConversations_clients (this : ref) (inboxId : string)
    (params : option ref) (s : State) :
  clients (snd (listInboxConversations w this inboxId params s)) = clients s.
Proof.
  destruct params as [r|].
  - now rewrite listInboxConversations_run.
  - now rewrite listInboxConversations_default, listInboxConversations_run.
Qed.

Lemma listConversationMessages_clients (this : ref) (conversationId : string) (s : State) :
  clients (snd (listConversationMessages w this conversationId s)) = clients s.
Proof. now rewrite listConversationMessages_run. Qed.

Lemma listInboxMessages_clients (this : ref) (inboxId : string)
    (params : option ref) (s : State) :
  clients (snd (listInboxMessages w this inboxId params s)) = clients s.
Proof.
  destruct params as [r|].
  - rewrite listInboxMessages_run. simpl.
    destruct (conversation_outcome _ _ _ _ _); simpl;
      rewrite ?prepare_clients; reflexivity.
  - rewrite listInboxMessages_default, listInboxMessages_run. simpl.
    destruct (conversation_outcome _ _ _ _ _); simpl;
      rewrite ?prepare_clients; reflexivity.
Qed.

Lemma constructor_clients (options : FrontClientOptions.t) (s : State) (this : ref) :
  is_Some (clients s !! this) ->
  clients (snd (constructor w options s)) !! this = clients s !! this.
Proof.
  intros Hthis. unfold constructor.
  destruct (negb _); [reflexivity|].
  unfold bind, alloc_client, ret; simpl.
  apply lookup_insert_ne. intros Heq.
  apply (is_fresh (dom (clients s))). rewrite Heq.
  now apply elem_of_dom.
Qed.

(** C8. Without a token in the options and in the environment the
    construction fails, nothing having been asked of the network and no
    instance made; with a token in the options it succeeds, the instance
    holds that token, and no operation of the client, nor the construction
    of another client, changes the fields of an instance. *)
Theorem constructor_requires_token :
  forall (options : FrontClientOptions.t) (s : State),
    (truthy_string (FrontClientOptions.token options) = false ->
     truthy_string (env w "FRONT_API_TOKEN") = false ->
     constructor w options s = (Err {| message := missing_token_message |}, s))
    /\ (forall tok,
          FrontClientOptions.token options = Some tok ->
          tok <> EmptyString ->
          exists this,
            fst (constructor w options s) = Ok this
            /\ clients s !! this = None
            /\ token (clients (snd (constructor w options s)) !!! this) = tok
            /\ requests (snd (constructor w options s)) = requests s)
    /\ (forall (this : ref) (inboxId conversationId : string) (params : option ref),
          clients (snd (listInboxConversations w this inboxId params s)) = clients s
          /\ clients (snd (listConversationMessages w this conversationId s)) = clients s
          /\ clients (snd (listInboxMessages w this inboxId params s)) = clients s)
    /\ (forall (this : ref) (options' : FrontClientOptions.t),
          is_Some (clients s !! this) ->
          clients (snd (constructor w options' s)) !! this = clients s !! this).
Proof.
  intros options s. split; [|split; [|split]].
  - intros Hopt Henv. unfold constructor.
    rewrite (or_string_truthy _ _ Hopt), (or_string_truthy _ _ Henv). reflexivity.
  - intros tok Htok Hne. exists (fresh (dom (clients s))).
    rewrite (constructor_with_token options tok s Htok Hne). simpl.
    split; [reflexivity|]. split; [|split; [|reflexivity]].
    + apply not_elem_of_dom. apply is_fresh.
    + now rewrite lookup_total_insert_eq.
  - intros this inboxId conversationId params.
    split; [|split].
    + apply listInboxConversations_clients.
    + apply listConversationMessages_clients.
    + apply listInboxMessages_clients.
  - intros this options' Hthis. now apply constructor_clients.
Qed.

End Construction.

(** ** Requests of a constructed client *)

Section Authorization.
Variable w : World.

Lemma issued_app (s s' : State) (l : list Request) :
  requests s' = (requests s ++ l)%list -> issued s s' = l.
Proof. intros H. unfold issued. rewrite H. apply drop_app_length. Qed.

Lemma listInboxConversations_issued (this : ref) (inboxId : string)
    (params : option ref) (s : State) :
  issued s (snd (listInboxConversations w this inboxId params s))
  = [request_of (clients s !!! this) "GET"
       (conversations_path inboxId (filter_of params s)) None].
Proof.
  apply issued_app. destruct params as [r|].
  - now rewrite listInboxConversations_run.
  - rewrite listInboxConversations_default, listInboxConversations_run.
    cbn [store log snd clients requests objects filter_of].
    now rewrite lookup_total_insert_eq.
Qed.

Lemma listConversationMessages_issued (this : ref) (conversationId : string) (s : State) :
  issued s (snd (listConversationMessages w this conversationId s))
  = [request_of (clients s !!! this) "GET" (messages_path conversationId) None].
Proof. apply issued_app. now rewrite listConversationMessages_run. Qed.

Lemma prefix_empty (s : string) : String.prefix EmptyString s = true.
Proof. destruct s; reflexivity. Qed.

Lemma request_of_authorized (self : FrontClient) (method' path : string)
    (data : option JsonValue) :
  authorized (token self) (baseUrl self) (request_of self method' path data).
Proof.
  split.
  - left. reflexivity.
  - apply prefix_append.
Qed.

Lemma message_requests_authorized (self : FrontClient) (page : list Conversation.t) :
  Forall (authorized (token self) (baseUrl self)) (message_requests self page).
Proof.
  unfold message_requests.
  induction page as [|c page IH]; simpl; constructor;
    [apply request_of_authorized | exact IH].
Qed.

(** Every request of the three operations carries the token of the client
    and goes under its base URL. *)
Lemma operations_authorized (this : ref) (s : State) (inboxId conversationId : string)
    (params : option ref) :
  let self := clients s !!! this in
  Forall (authorized (token self) (baseUrl self))
    (issued s (snd (listInboxConversations w this inboxId params s)))
  /\ Forall (authorized (token self) (baseUrl self))
       (issued s (snd (listConversationMessages w this conversationId s)))
  /\ Forall (authorized (token self) (baseUrl self))
       (issued s (snd (listInboxMessages w this inboxId params s))).
Proof.
  intros self. split; [|split].
  - rewrite listInboxConversations_issued. repeat constructor; apply prefix_append.
  - rewrite listConversationMessages_issued. repeat constructor; apply prefix_append.
  - rewrite (issued_app _ _ _ (listInboxMessages_requests w this inboxId params s)).
    constructor; [apply request_of_authorized|].
    destruct (conversation_outcome _ _ _ _ _);
      [apply message_requests_authorized | constructor].
Qed.

(** C7. A client constructed with a token in the options sends every
    request with the header [Authorization: Bearer <token>] and to a URL
    that starts with [https://api2.frontapp.com], or with the base URL of
    the options when there is one. *)
Theorem requests_carry_token_and_base :
  forall (options : FrontClientOptions.t) (tok : string) (s : State),
    FrontClientOptions.token options = Some tok ->
    tok <> EmptyString ->
    let base := match FrontClientOptions.baseUrl options with
                | Some override => override
                | None => "https://api2.frontapp.com"
                end in
    exists this,
      fst (constructor w options s) = Ok this
      /\ forall (s1 : State) (inboxId conversationId : string) (params : option ref),
           clients s1 !! this = clients (snd (constructor w options s)) !! this ->
           Forall (authorized tok base)
             (issued s1 (snd (listInboxConversations w this inboxId params s1)))
           /\ Forall (authorized tok base)
                (issued s1 (snd (listConversationMessages w this conversationId s1)))
           /\ Forall (authorized tok base)
                (issued s1 (snd (listInboxMessages w this inboxId params s1))).
Proof.
  intros options tok s Htok Hne base.
  exists (fresh (dom (clients s))).
  rewrite (constructor_with_token w options tok s Htok Hne). cbn [fst snd clients].
  split; [reflexivity|].
  intros s1 inboxId conversationId params Hsame.
  rewrite lookup_insert_eq in Hsame. apply lookup_total_correct in Hsame.
  assert (Hweaken : forall req,
             authorized tok
               (or_string (FrontClientOptions.baseUrl options) default_baseUrl) req ->
             authorized tok base req).
  { intros req [Hheader Hprefix]. split; [exact Hheader|].
    unfold base, or_string in *.
    destruct (FrontClientOptions.baseUrl options) as [[|c rest]|];
      [apply prefix_empty | exact Hprefix | exact Hprefix]. }
  pose proof (operations_authorized (fresh (dom (clients s))) s1 inboxId
                conversationId params) as Hops.
  cbv zeta in Hops. rewrite Hsame in Hops. cbn [token baseUrl] in Hops.
  destruct Hops as (H1 & H2 & H3).
  repeat split; eapply Forall_impl; eauto.
Qed.

End Authorization.

(** ** The tool *)

(** C6. A call of the tool with a [limit] below 1 or above 100 is refused by
    the schema: the handler does not run and the state, the calls of [fetch]
    in particular, is as before. *)
Theorem getConversations_rejects_limit_out_of_range :
  forall (w : World) (input : GetConversations.Input) (n : Z) (s : State),
    GetConversations.limit input = Some n ->
    n < 1 \/ 100 < n ->
    exists issue,
      GetConversations.getConversations w input s = (GetConversations.Rejected issue, s)
      /\ issued s (snd (GetConversations.getConversations w input s)) = [].
Proof.
  intros w input n s Hlimit Hrange.
  assert (Hparse : exists issue, GetConversations.parse input = GetConversations.Invalid issue).
  { unfold GetConversations.parse, GetConversations.parse_limit. rewrite Hlimit.
    destruct (n <? 1) eqn:Hlow; [eauto|].
    destruct (100 <? n) eqn:Hhigh; [eauto|]. lia. }
  destruct Hparse as [issue Hparse]. exists issue.
  unfold GetConversations.getConversations. rewrite Hparse.
  split; [reflexivity|]. unfold issued, ret; simpl. apply drop_all.
Qed.

(** ** Falsy filter fields *)

(** C10. A falsy field of the filter of [listInboxConversations] (an empty
    [q], [page_token], [start] or [end], a [limit] of 0) adds no query
    parameter: the path is the path of the filter without the field, and so
    are the request made and the outcome of the call. *)
Theorem listInboxConversations_falsy_fields_omitted :
  forall (inboxId : string) (q0 pt s0 e : option string) (l : option Z)
         (st : option Status) (u : option bool),
    conversations_path inboxId
      {| q := Some EmptyString; page_token := pt; limit := l; start := s0; end_ := e;
         status := st; onlyUnresolved := u |}
    = conversations_path inboxId
        {| q := None; page_token := pt; limit := l; start := s0; end_ := e;
           status := st; onlyUnresolved := u |}
    /\ conversations_path inboxId
         {| q := q0; page_token := Some EmptyString; limit := l; start := s0; end_ := e;
            status := st; onlyUnresolved := u |}
       = conversations_path inboxId
           {| q := q0; page_token := None; limit := l; start := s0; end_ := e;
              status := st; onlyUnresolved := u |}
    /\ conversations_path inboxId
         {| q := q0; page_token := pt; limit := Some 0; start := s0; end_ := e;
            status := st; onlyUnresolved := u |}
       = conversations_path inboxId
           {| q := q0; page_token := pt; limit := None; start := s0; end_ := e;
              status := st; onlyUnresolved := u |}
    /\ conversations_path inboxId
         {| q := q0; page_token := pt; limit := l; start := Some EmptyString; end_ := e;
            status := st; onlyUnresolved := u |}
       = conversations_path inboxId
           {| q := q0; page_token := pt; limit := l; start := None; end_ := e;
              status := st; onlyUnresolved := u |}
    /\ conversations_path inboxId
         {| q := q0; page_token := pt; limit := l; start := s0; end_ := Some EmptyString;
            status := st; onlyUnresolved := u |}
       = conversations_path inboxId
           {| q := q0; page_token := pt; limit := l; start := s0; end_ := None;
              status := st; onlyUnresolved := u |}
    /\ (forall (w : World) (this r : ref) (s : State) (p p' : Params),
          conversations_path inboxId p = conversations_path inboxId p' ->
          fst (listInboxConversations w this inboxId (Some r) (store r p s))
          = fst (listInboxConversations w this inboxId (Some r) (store r p' s))
          /\ requests (snd (listInboxConversations w this inboxId (Some r) (store r p s)))
             = requests (snd (listInboxConversations w this inboxId (Some r) (store r p' s)))).
Proof.
  intros inboxId q0 pt s0 e l st u.
  repeat (split; [reflexivity|]).
  intros w this r s p p' Hpath.
  rewrite !listInboxConversations_run.
  cbn [store log fst snd clients requests objects].
  rewrite !lookup_total_insert_eq.
  unfold conversation_outcome. rewrite Hpath. split; reflexivity.
Qed.

(** ** The properties on the concrete inbox *)

Example toString_status_open :
  URLSearchParams.toString [("limit", "2"); ("q", "status:" ++ dquote ++ "open" ++ dquote)]
  = "limit=2&q=status%3A%22open%22".
Proof. reflexivity. Qed.

Example stringify_not_found :
  JSON_stringify (JObj [("message", JStr "not found")])
  = "{" ++ dquote ++ "message" ++ dquote ++ ":" ++ dquote ++ "not found" ++ dquote ++ "}".
Proof. reflexivity. Qed.

Example number_toString_404 : number_toString 404 = "404".
Proof. reflexivity. Qed.

(** The client itself sends whatever non-zero [limit] it is given; the bound
    is the schema's. *)
Example client_sends_any_limit :
  conversations_path "inb_1" (params_of_limit 500) = "/inboxes/inb_1/conversations?limit=500".
Proof. reflexivity. Qed.

(** A [limit] within the bounds passes the schema. *)
Example parse_limit_in_range :
  GetConversations.parse_limit (Some 2) = GetConversations.Valid 2
  /\ GetConversations.parse_limit None = GetConversations.Valid 10.
Proof. split; reflexivity. Qed.

Example demo_run_ok :
  fst (listInboxMessages (demo_world false) 0%nat "inb_1" (Some 0%nat) demo_state)
  = Ok demo_result.
Proof. vm_compute. reflexivity. Qed.

Example demo_run_requests :
  List.map url
    (requests (snd (listInboxMessages (demo_world false) 0%nat "inb_1" (Some 0%nat)
                      demo_state)))
  = [ "https://api2.frontapp.com/inboxes/inb_1/conversations?q=invoice+AND+status%3A%22open%22&limit=2";
      "https://api2.frontapp.com/conversations/c1/messages";
      "https://api2.frontapp.com/conversations/c2/messages";
      "https://api2.frontapp.com/conversations/c3/messages" ].
Proof. vm_compute. reflexivity. Qed.

Example demo_run_fails :
  fst (listInboxMessages (demo_world true) 0%nat "inb_1" (Some 0%nat) demo_state)
  = Err {| message := "Front API request failed: 404 Not Found - {" ++ dquote ++ "message"
                      ++ dquote ++ ":" ++ dquote ++ "not found" ++ dquote ++ "}" |}.
Proof. vm_compute. reflexivity. Qed.

Lemma listInboxMessages_onlyUnresolved_status_open_witness :
  truthy_bool (onlyUnresolved (objects demo_state !!! 0%nat)) = true
  /\ requests (snd (listInboxMessages (demo_world false) 0%nat "inb_1" (Some 0%nat)
                     demo_state)) !! 0%nat
     = Some (request_of demo_client "GET"
               (conversations_path "inb_1" (with_status (Some open) demo_filter)) None).
Proof.
  split; [vm_compute; reflexivity|].
  destruct (listInboxMessages_onlyUnresolved_status_open (demo_world false) 0%nat
              "inb_1" 0%nat demo_state) as (Hfirst & _ & _);
    [vm_compute; reflexivity|].
  exact Hfirst.
Defined.

Lemma listInboxConversations_q_parameter_witness :
  "invoice" <> EmptyString
  /\ URLSearchParams.getAll "q" (conversations_queryParams demo_filter)
     = ["invoice AND status:" ++ dquote ++ "archived" ++ dquote].
Proof.
  split; [discriminate|].
  destruct (listInboxConversations_q_parameter "invoice" None (Some 2) None None
              (Some true) archived) as (Hboth & _); [discriminate|].
  exact Hboth.
Defined.

Lemma listInboxMessages_messages_in_page_order_witness :
  fst (listInboxMessages (demo_world false) 0%nat "inb_1" (Some 0%nat) demo_state)
  = Ok demo_result
  /\ exists responses : list (Envelope Message.t),
       length responses = 3%nat
       /\ messages demo_result
          = concat (List.map (fun response => _results response) responses).
Proof.
  split; [vm_compute; reflexivity|].
  destruct (listInboxMessages_messages_in_page_order (demo_world false) 0%nat "inb_1"
              (Some 0%nat) demo_state demo_result) as (responses & Hlen & _ & Hcat & _);
    [vm_compute; reflexivity|].
  exists responses. split; [exact Hlen | exact Hcat].
Defined.


Lemma request_translates_response_witness :
  network (demo_world true) (length (requests demo_state_later))
    (request_of (clients demo_state_later !!! 0%nat) "GET" (messages_path "c2") None)
  = Ok demo_not_found
  /\ exists description,
       fst (request (demo_world true) (demo_page demo_message) 0%nat "GET"
              (messages_path "c2") None demo_state_later)
       = Err {| message := description |}
       /\ contains "404" description
       /\ contains "Not Found" description
       /\ contains "not found" description.
Proof.
  split; [vm_compute; reflexivity|].
  destruct (request_translates_response (demo_world true) _ (demo_page demo_message)
              0%nat "GET" (messages_path "c2") None demo_state_later demo_not_found)
    as (_ & Hnot_found & _); [vm_compute; reflexivity|].
  apply Hnot_found; reflexivity.
Defined.

Lemma getConversations_rejects_limit_out_of_range_witness :
  GetConversations.limit demo_input = Some 101
  /\ (101 < 1 \/ 100 < 101)
  /\ exists issue,
       GetConversations.getConversations (demo_world false) demo_input demo_state
       = (GetConversations.Rejected issue, demo_state)
       /\ issued demo_state
            (snd (GetConversations.getConversations (demo_world false) demo_input
                    demo_state)) = [].
Proof.
  split; [reflexivity|]. split; [lia|].
  apply (getConversations_rejects_limit_out_of_range (demo_world false) demo_input 101
           demo_state); [reflexivity | lia].
Defined.

Lemma requests_carry_token_and_base_witness :
  FrontClientOptions.token demo_options = Some "secret"
  /\ "secret" <> EmptyString
  /\ exists this,
       fst (constructor (demo_world false) demo_options initial_state) = Ok this
       /\ Forall (authorized "secret" "https://api2.frontapp.com")
            (issued (snd (constructor (demo_world false) demo_options initial_state))
               (snd (listInboxMessages (demo_world false) this "inb_1" None
                       (snd (constructor (demo_world false) demo_options
                               initial_state))))).
Proof.
  split; [reflexivity|]. split; [discriminate|].
  destruct (requests_carry_token_and_base (demo_world false) demo_options "secret"
              initial_state) as (this & Hthis & Hops); [reflexivity | discriminate |].
  exists this. split; [exact Hthis|].
  apply (Hops _ "inb_1" "c1" None). reflexivity.
Defined.

Lemma constructor_requires_token_witness :
  truthy_string (FrontClientOptions.token demo_no_options) = false
  /\ truthy_string (env (demo_world false) "FRONT_API_TOKEN") = false
  /\ constructor (demo_world false) demo_no_options initial_state
     = (Err {| message := missing_token_message |}, initial_state).
Proof.
  split; [reflexivity|]. split; [reflexivity|].
  apply (constructor_requires_token (demo_world false) demo_no_options initial_state);
    reflexivity.
Defined.

Lemma listInboxMessages_mutates_filter_witness :
  truthy_bool (onlyUnresolved (objects demo_state !!! 0%nat)) = true
  /\ status (objects demo_state !!! 0%nat) = Some archived
  /\ status (objects (snd (listInboxMessages (demo_world false) 0%nat "inb_1"
                            (Some 0%nat) demo_state)) !!! 0%nat) = Some open.
Proof.
  split; [vm_compute; reflexivity|]. split; [vm_compute; reflexivity|].
  apply (listInboxMessages_mutates_filter (demo_world false) 0%nat "inb_1" 0%nat
           demo_state).
  vm_compute; reflexivity.
Defined.

Lemma listInboxConversations_falsy_fields_omitted_witness :
  conversations_path "inb_1" (with_status None (set_q EmptyString demo_filter))
  = conversations_path "inb_1"
      {| q := None; page_token := None; limit := Some 2; start := None; end_ := None;
         status := None; onlyUnresolved := Some true |}
  /\ conversations_path "inb_1" (with_status None (set_q EmptyString demo_filter))
     = "/inboxes/inb_1/conversations?limit=2"
  /\ fst (listInboxConversations (demo_world false) 0%nat "inb_1" (Some 0%nat)
            (store 0%nat (with_status None (set_q EmptyString demo_filter)) demo_state))
     = fst (listInboxConversations (demo_world false) 0%nat "inb_1" (Some 0%nat)
              (store 0%nat
                 {| q := None; page_token := None; limit := Some 2; start := None;
                    end_ := None; status := None; onlyUnresolved := Some true |}
                 demo_state)).
Proof.
  destruct (listInboxConversations_falsy_fields_omitted "inb_1" None None None None
              (Some 2) None (Some true)) as (Hq & _ & _ & _ & _ & Hcall).
  split; [exact Hq|]. split; [reflexivity|].
  apply (Hcall (demo_world false) 0%nat 0%nat demo_state). exact Hq.
Defined.

(** * Further properties of the client *)

(** ** Transport *)

Section Transport.
Variable w : World.

(** X1. Each of the three public operations only makes [GET] requests
    without a body, with the bearer, content-type and accept headers. *)
Theorem operations_make_plain_gets :
  forall (this : ref) (inboxId conversationId : string) (params : option ref) (s : State),
    Forall (plain_get (clients s !!! this))
      (issued s (snd (listInboxConversations w this inboxId params s)))
    /\ Forall (plain_get (clients s !!! this))
         (issued s (snd (listConversationMessages w this conversationId s)))
    /\ Forall (plain_get (clients s !!! this))
         (issued s (snd (listInboxMessages w this inboxId params s))).
Proof.
  intros this inboxId conversationId params s.
  assert (Hone : forall path, plain_get (clients s !!! this)
                                (request_of (clients s !!! this) "GET" path None)).
  { intros path. repeat split. }
  split; [|split].
  - rewrite listInboxConversations_issued. repeat constructor.
  - rewrite listConversationMessages_issued. repeat constructor.
  - rewrite (issued_app _ _ _ (listInboxMessages_requests w this inboxId params s)).
    constructor; [apply Hone|].
    destruct (conversation_outcome _ _ _ _ _) as [page|e]; [|constructor].
    unfold message_requests.
    induction (_results page) as [|c page' IH]; simpl; constructor;
      [apply Hone | exact IH].
Qed.

(** X2. [request] makes one call of [fetch] whatever comes of it, and does
    not translate the failures that are not an HTTP status: the rejection of
    [fetch] is its rejection, and so is the rejection of [response.json()] on
    a response in 200-299. *)
Theorem request_propagates_failures :
  forall (T : Type) (view : JsonValue -> T) (this : ref) (method' path : string)
         (data : option JsonValue) (s : State),
    let req := request_of (clients s !!! this) method' path data in
    let run := request w view this method' path data s in
    issued s (snd run) = [req]
    /\ (forall e, network w (length (requests s)) req = Err e -> fst run = Err e)
    /\ (forall response e,
          network w (length (requests s)) req = Ok response ->
          Response.ok response = true ->
          Response.json response = Err e ->
          fst run = Err e).
Proof.
  intros T view this method' path data s req run.
  unfold run. rewrite request_run. fold req. cbn [fst snd].
  split; [|split].
  - apply issued_app. reflexivity.
  - intros e ->. reflexivity.
  - intros response e -> Hok Hjson. unfold settle, response_result.
    now rewrite Hok, Hjson.
Qed.

End Transport.

Lemma request_propagates_failures_witness :
  network (demo_world false) (length (requests demo_state_exhausted))
    (request_of (clients demo_state_exhausted !!! 0%nat) "GET" (messages_path "c9") None)
  = Err {| message := "request to https://api2.frontapp.com/conversations/c9/messages"
                      ++ " failed, reason: ECONNREFUSED" |}
  /\ fst (listConversationMessages (demo_world false) 0%nat "c9" demo_state_exhausted)
     = Err {| message := "request to https://api2.frontapp.com/conversations/c9/messages"
                         ++ " failed, reason: ECONNREFUSED" |}.
Proof.
  split; [vm_compute; reflexivity|].
  destruct (request_propagates_failures (demo_world false) _ (demo_page demo_message)
              0%nat "GET" (messages_path "c9") None demo_state_exhausted)
    as (_ & Hfetch & _).
  apply Hfetch. vm_compute; reflexivity.
Defined.

(** ** Fan-out *)

Section FanOut.
Variable w : World.

(** X3. Once the conversations are listed, [listInboxMessages] asks for the
    messages of every conversation of the page, one request per entry and in
    the order of the page, whether or not some of these requests fail; when
    the listing of the conversations fails it makes no other request. *)
Theorem listInboxMessages_requests_every_conversation :
  forall (this : ref) (inboxId : string) (params : option ref) (s : State),
    let self := clients s !!! this in
    let made := issued s (snd (listInboxMessages w this inboxId params s)) in
    (forall page,
        conversation_outcome w self (length (requests s)) inboxId
          (effective_filter (filter_of params s)) = Ok page ->
        length made = S (length (_results page))
        /\ List.map url (tail made)
           = List.map (fun conversation =>
                         baseUrl self ++ "/conversations/"
                         ++ Conversation.id conversation ++ "/messages")
                      (_results page))
    /\ (forall e,
          conversation_outcome w self (length (requests s)) inboxId
            (effective_filter (filter_of params s)) = Err e ->
          length made = 1%nat).
Proof.
  intros this inboxId params s self made.
  assert (Hmade := issued_app _ _ _ (listInboxMessages_requests w this inboxId params s)).
  fold self made in Hmade.
  split.
  - intros page Hpage. rewrite Hpage in Hmade. rewrite Hmade. cbn [length tail].
    unfold message_requests. rewrite length_map, List.map_map. split; reflexivity.
  - intros e He. rewrite He in Hmade. now rewrite Hmade.
Qed.

(** X4. When exactly one message listing fails, its error is the error of
    [listInboxMessages]; and whatever else fails, the error of the listing
    that settles first, if it fails, is the error of [listInboxMessages]. *)
Theorem listInboxMessages_surfaces_the_failure :
  forall (this : ref) (inboxId : string) (params : option ref) (s : State)
         (page : Envelope Conversation.t) (i : nat) (conversation : Conversation.t)
         (e : Error),
    let self := clients s !!! this in
    let n := length (requests s) in
    conversation_outcome w self n inboxId (effective_filter (filter_of params s))
    = Ok page ->
    _results page !! i = Some conversation ->
    message_outcome w self (S n + i) (Conversation.id conversation) = Err e ->
    ((forall j conversation',
         j <> i -> _results page !! j = Some conversation' ->
         exists response,
           message_outcome w self (S n + j) (Conversation.id conversation') = Ok response) ->
     fst (listInboxMessages w this inboxId params s) = Err e)
    /\ ((exists later, settle_order w = i :: later) ->
        fst (listInboxMessages w this inboxId params s) = Err e).
Proof.
  intros this inboxId params s page i conversation e self n Hpage Hi Hfail.
  assert (Hlook : message_outcomes w self (S n) (_results page) !! i = Some (Err e)).
  { rewrite message_outcomes_lookup, Hi. simpl. f_equal. exact Hfail. }
  rewrite listInboxMessages_outcome. fold self n. rewrite Hpage.
  split.
  - intros Hothers.
    destruct (promise_all_rejected (settle_order w) _ _ _ Hlook) as [e' He'].
    rewrite He'. f_equal.
    destruct (promise_all_Err _ _ _ He') as [j Hj].
    destruct (decide (j = i)) as [->|Hne]; [congruence|].
    rewrite message_outcomes_lookup in Hj.
    destruct (_results page !! j) as [conversation'|] eqn:Hpj; [|discriminate].
    destruct (Hothers j conversation' Hne Hpj) as [response Hresponse].
    injection Hj as Hj. change (S (n + j)) with (S n + j)%nat in Hj. congruence.
  - intros [later Horder]. unfold promise_all.
    destruct (sequence_results_rejected _ _ _ Hlook) as [e0 ->].
    rewrite Horder. cbn [first_rejection]. now rewrite Hlook.
Qed.

(** X5. [listInboxConversations] and [listConversationMessages] leave every
    filter object as it is, and a call of [listInboxConversations] or of
    [listInboxMessages] without a filter leaves the objects that exist as
    they are. *)
Theorem listings_leave_filters_alone :
  forall (this : ref) (inboxId conversationId : string) (r : ref) (s : State),
    objects (snd (listInboxConversations w this inboxId (Some r) s)) = objects s
    /\ objects (snd (listConversationMessages w this conversationId s)) = objects s
    /\ (forall r',
          is_Some (objects s !! r') ->
          objects (snd (listInboxConversations w this inboxId None s)) !! r'
          = objects s !! r'
          /\ objects (snd (listInboxMessages w this inboxId None s)) !! r'
             = objects s !! r').
Proof.
  intros this inboxId conversationId r s.
  split; [|split].
  - now rewrite listInboxConversations_run.
  - now rewrite listConversationMessages_run.
  - intros r' Hr'.
    assert (Hfresh : fresh (dom (objects s)) <> r').
    { intros Heq. apply (is_fresh (dom (objects s))). rewrite Heq.
      now apply elem_of_dom. }
    split.
    + rewrite listInboxConversations_default, listInboxConversations_run.
      cbn [store log snd objects]. now apply lookup_insert_ne.
    + rewrite listInboxMessages_default, listInboxMessages_objects.
      unfold prepare. cbn [store objects]. rewrite lookup_total_insert_eq.
      cbn [empty_params onlyUnresolved truthy_bool store objects].
      now apply lookup_insert_ne.
Qed.

End FanOut.

Lemma listInboxMessages_requests_every_conversation_witness :
  conversation_outcome (demo_world true) (clients demo_state !!! 0%nat)
    (length (requests demo_state)) "inb_1" (effective_filter (filter_of (Some 0%nat) demo_state))
  = Ok (demo_page demo_conversation (JArr [JStr "c1"; JStr "c2"; JStr "c3"]))
  /\ length (issued demo_state
               (snd (listInboxMessages (demo_world true) 0%nat "inb_1" (Some 0%nat)
                       demo_state))) = 4%nat.
Proof.
  split; [vm_compute; reflexivity|].
  destruct (listInboxMessages_requests_every_conversation (demo_world true) 0%nat "inb_1"
              (Some 0%nat) demo_state) as (Hpage & _).
  destruct (Hpage (demo_page demo_conversation (JArr [JStr "c1"; JStr "c2"; JStr "c3"])))
    as (Hlength & _); [vm_compute; reflexivity|].
  exact Hlength.
Defined.

Lemma listInboxMessages_surfaces_the_failure_witness :
  _results (demo_page demo_conversation (JArr [JStr "c1"; JStr "c2"; JStr "c3"])) !! 1%nat
  = Some (demo_conversation "c2")
  /\ fst (listInboxMessages (demo_world true) 0%nat "inb_1" (Some 0%nat) demo_state)
     = Err demo_not_found_error.
Proof.
  split; [reflexivity|].
  destruct (listInboxMessages_surfaces_the_failure (demo_world true) 0%nat "inb_1"
              (Some 0%nat) demo_state
              (demo_page demo_conversation (JArr [JStr "c1"; JStr "c2"; JStr "c3"]))
              1%nat (demo_conversation "c2") demo_not_found_error)
    as (Hsingle & _);
    [vm_compute; reflexivity | reflexivity | vm_compute; reflexivity |].
  apply Hsingle.
  intros j conversation' Hne Hj.
  destruct j as [|[|[|j]]]; [| congruence | |discriminate Hj];
    injection Hj as <-; eexists; vm_compute; reflexivity.
Defined.

Lemma listings_leave_filters_alone_witness :
  is_Some (objects demo_state !! 0%nat)
  /\ objects (snd (listInboxMessages (demo_world false) 0%nat "inb_1" None demo_state))
     !! 0%nat = Some demo_filter.
Proof.
  split; [eexists; vm_compute; reflexivity|].
  destruct (listings_leave_filters_alone (demo_world false) 0%nat "inb_1" "c1" 0%nat
              demo_state) as (_ & _ & Hdefault).
  destruct (Hdefault 0%nat) as (_ & Hmessages);
    [eexists; vm_compute; reflexivity|].
  eapply eq_trans; [exact Hmessages | vm_compute; reflexivity].
Defined.

(** ** The query string *)

Lemma append_cons (c : ascii) (a b : string) : String c a ++ b = String c (a ++ b).
Proof. reflexivity. Qed.

Lemma string_forall_append (f : ascii -> bool) (a b : string) :
  string_forall f (a ++ b) = string_forall f a && string_forall f b.
Proof.
  induction a as [|c a IH]; [reflexivity|].
  rewrite append_cons. cbn [string_forall]. rewrite IH. apply andb_assoc.
Qed.

Lemma occurrences_append (c : ascii) (a b : string) :
  occurrences c (a ++ b) = (occurrences c a + occurrences c b)%nat.
Proof.
  induction a as [|c' a IH]; [reflexivity|].
  rewrite append_cons. cbn [occurrences]. rewrite IH. lia.
Qed.

Lemma string_forall_weaken (f g : ascii -> bool) (s : string) :
  (forall c, f c = true -> g c = true) ->
  string_forall f s = true -> string_forall g s = true.
Proof.
  intros Hfg. induction s as [|c s IH]; [reflexivity|]. cbn [string_forall].
  rewrite !andb_true_iff. intros [Hc Hs]. auto.
Qed.

Lemma string_forall_occurrences (f : ascii -> bool) (c : ascii) (s : string) :
  f c = false -> string_forall f s = true -> occurrences c s = 0%nat.
Proof.
  intros Hc. induction s as [|c' s IH]; [reflexivity|]. cbn [string_forall occurrences].
  rewrite andb_true_iff. intros [Hc' Hs]. rewrite (IH Hs).
  destruct (Ascii.eqb c c') eqn:E; [|reflexivity].
  apply Ascii.eqb_eq in E. congruence.
Qed.

Lemma encode_byte_chars (c : ascii) :
  string_forall encoded_char (URLSearchParams.encode_byte c) = true.
Proof. destruct c as [[] [] [] [] [] [] [] []]; reflexivity. Qed.

Lemma encode_chars (s : string) :
  string_forall encoded_char (URLSearchParams.encode s) = true.
Proof.
  induction s as [|c s IH]; [reflexivity|]. cbn [URLSearchParams.encode].
  now rewrite string_forall_append, encode_byte_chars, IH.
Qed.

Lemma encoded_is_query_char (c : ascii) : encoded_char c = true -> query_char c = true.
Proof. unfold query_char. now intros ->. Qed.

Lemma pair_chars (pair : string * string) :
  string_forall query_char
    (URLSearchParams.encode (fst pair) ++ "=" ++ URLSearchParams.encode (snd pair)) = true.
Proof.
  rewrite !string_forall_append.
  rewrite !(string_forall_weaken _ _ _ encoded_is_query_char (encode_chars _)).
  reflexivity.
Qed.

Lemma pair_occurrences (pair : string * string) :
  occurrences "=" (URLSearchParams.encode (fst pair) ++ "=" ++ URLSearchParams.encode (snd pair))
  = 1%nat
  /\ occurrences "&"
       (URLSearchParams.encode (fst pair) ++ "=" ++ URLSearchParams.encode (snd pair))
     = 0%nat.
Proof.
  rewrite !occurrences_append.
  rewrite !(string_forall_occurrences encoded_char "=" _ eq_refl (encode_chars _)).
  rewrite !(string_forall_occurrences encoded_char "&" _ eq_refl (encode_chars _)).
  split; reflexivity.
Qed.

Lemma toString_cons (pair : string * string) (l : URLSearchParams.t) :
  URLSearchParams.toString (pair :: l)
  = (URLSearchParams.encode (fst pair) ++ "=" ++ URLSearchParams.encode (snd pair))
    ++ match l with
       | [] => EmptyString
       | _ :: _ => "&" ++ URLSearchParams.toString l
       end.
Proof.
  unfold URLSearchParams.toString. cbn [List.map String.concat].
  destruct l as [|pair' l]; cbn [List.map].
  - now rewrite append_nil_r.
  - reflexivity.
Qed.

(** X6. Whatever the filter holds, the query string that
    [listInboxConversations] composes is made of ASCII letters and digits and
    of [* - . _ + % & =] only, with one [=] per parameter and one [&] between
    two parameters: the text of a filter cannot add or end a parameter. *)
Theorem listInboxConversations_query_string_is_escaped :
  forall (params : Params),
    let queryString := URLSearchParams.toString (conversations_queryParams params) in
    string_forall query_char queryString = true
    /\ occurrences "=" queryString = length (conversations_queryParams params)
    /\ occurrences "&" queryString = pred (length (conversations_queryParams params)).
Proof.
  intros params. cbv zeta. generalize (conversations_queryParams params).
  intros l. induction l as [|pair l (IHchars & IHeq & IHamp)]; [repeat split|].
  rewrite toString_cons.
  pose proof (pair_chars pair) as Hchars.
  destruct (pair_occurrences pair) as [Heq Hamp]. revert Hchars Heq Hamp.
  generalize (URLSearchParams.encode (fst pair) ++ "="
              ++ URLSearchParams.encode (snd pair)).
  intros this_pair Hchars Heq Hamp.
  rewrite string_forall_append, !occurrences_append, Hchars, Heq, Hamp.
  destruct l as [|pair' l]; [repeat split|].
  rewrite string_forall_append, !occurrences_append, IHchars, IHeq, IHamp.
  repeat split.
Qed.



Lemma append_cons_truthy (a b : string) (c : ascii) :
  truthy_string (Some (a ++ String c b)) = true.
Proof. destruct a; reflexivity. Qed.

Lemma toString_truthy (l : URLSearchParams.t) :
  l <> [] -> truthy_string (Some (URLSearchParams.toString l)) = true.
Proof.
  destruct l as [|pair l]; [congruence|]. intros _.
  rewrite toString_cons, !append_assoc. apply append_cons_truthy.
Qed.

(** X8. The path of [listInboxConversations] has a question mark and a
    query string exactly when the filter gives a parameter: a filter whose
    fields are all absent or falsy, and a call without a filter, ask for
    [/inboxes/<inboxId>/conversations] and nothing more. *)
Theorem listInboxConversations_path_without_filter :
  forall (inboxId : string) (params : Params),
    (conversations_queryParams params = [] <->
     truthy_string (q params) = false
     /\ truthy_string (page_token params) = false
     /\ truthy_number (limit params) = false
     /\ truthy_string (start params) = false
     /\ truthy_string (end_ params) = false
     /\ status params = None)
    /\ (conversations_queryParams params = [] ->
        conversations_path inboxId params = "/inboxes/" ++ inboxId ++ "/conversations")
    /\ (conversations_queryParams params <> [] ->
        conversations_path inboxId params
        = "/inboxes/" ++ inboxId ++ "/conversations?"
          ++ URLSearchParams.toString (conversations_queryParams params))
    /\ (forall (w : World) (this : ref) (s : State),
          issued s (snd (listInboxConversations w this inboxId None s))
          = [request_of (clients s !!! this) "GET"
               ("/inboxes/" ++ inboxId ++ "/conversations") None]).
Proof.
  intros inboxId params. split; [|split; [|split]].
  - destruct params as [q0 pt l s e st u]. cbn [q page_token limit start end_ status].
    destruct st as [st|]; split_filter_fields;
      (split; [intros H; (discriminate H || (repeat split; reflexivity))
              | intros (H1 & H2 & H3 & H4 & H5 & H6);
                (discriminate || reflexivity)]).
  - intros Hnone. unfold conversations_path. rewrite Hnone. reflexivity.
  - intros Hsome. unfold conversations_path.
    rewrite (toString_truthy _ Hsome). reflexivity.
  - intros w this s. rewrite listInboxConversations_issued. reflexivity.
Qed.

Lemma listInboxConversations_path_without_filter_witness :
  conversations_queryParams (with_status None (set_q EmptyString empty_params)) = []
  /\ conversations_path "inb_1" (with_status None (set_q EmptyString empty_params))
     = "/inboxes/inb_1/conversations".
Proof.
  split; [reflexivity|].
  destruct (listInboxConversations_path_without_filter "inb_1"
              (with_status None (set_q EmptyString empty_params))) as (_ & Hbare & _).
  apply Hbare. reflexivity.
Defined.

(** ** Construction from the environment *)

(** X9. Without a token in the options the client takes the token of the
    environment variable [FRONT_API_TOKEN]; an empty base URL in the options
    counts as none, so that the client then uses the default base URL. *)
Theorem constructor_falls_back :
  forall (w : World) (options : FrontClientOptions.t) (from_env : string) (s : State),
    truthy_string (FrontClientOptions.token options) = false ->
    env w "FRONT_API_TOKEN" = Some from_env ->
    from_env <> EmptyString ->
    exists this,
      fst (constructor w options s) = Ok this
      /\ token (clients (snd (constructor w options s)) !!! this) = from_env
      /\ (truthy_string (FrontClientOptions.baseUrl options) = false ->
          baseUrl (clients (snd (constructor w options s)) !!! this)
          = "https://api2.frontapp.com")
      /\ (forall override,
            FrontClientOptions.baseUrl options = Some override ->
            override <> EmptyString ->
            baseUrl (clients (snd (constructor w options s)) !!! this) = override).
Proof.
  intros w options from_env s Hnone Henv Hne.
  exists (fresh (dom (clients s))).
  unfold constructor. rewrite (or_string_truthy _ _ Hnone), Henv.
  destruct from_env as [|c rest]; [congruence|].
  cbn [or_string truthy_string negb].
  unfold bind, alloc_client, ret. cbn [fst snd clients].
  rewrite lookup_total_insert_eq. cbn [token baseUrl].
  split; [reflexivity|]. split; [reflexivity|]. split.
  - intros Hbase. apply or_string_truthy. exact Hbase.
  - intros override -> Hover. destruct override; [congruence | reflexivity].
Qed.

Lemma constructor_falls_back_witness :
  truthy_string (FrontClientOptions.token
                   {| FrontClientOptions.token := Some EmptyString;
                      FrontClientOptions.baseUrl := Some EmptyString |}) = false
  /\ exists this,
       fst (constructor
              {| network := demo_network false; settle_order := [];
                 env := fun name => if String.eqb name "FRONT_API_TOKEN"
                                    then Some "from the environment" else None;
                 as_conversations := demo_page demo_conversation;
                 as_messages := demo_page demo_message;
                 toISOString := number_toString |}
              {| FrontClientOptions.token := Some EmptyString;
                 FrontClientOptions.baseUrl := Some EmptyString |}
              initial_state) = Ok this.
Proof.
  split; [reflexivity|].
  destruct (constructor_falls_back
              {| network := demo_network false; settle_order := [];
                 env := fun name => if String.eqb name "FRONT_API_TOKEN"
                                    then Some "from the environment" else None;
                 as_conversations := demo_page demo_conversation;
                 as_messages := demo_page demo_message;
                 toISOString := number_toString |}
              {| FrontClientOptions.token := Some EmptyString;
                 FrontClientOptions.baseUrl := Some EmptyString |}
              "from the environment" initial_state)
    as (this & Hthis & _); [reflexivity | reflexivity | discriminate |].
  exists this. exact Hthis.
Defined.

(** * Further properties of the tool *)

Section Tool.
Variable w : World.

(** The parsed arguments are the input with the defaults filled in and the
    bounds checked. *)
Lemma parse_Valid (input : GetConversations.Input) (args : GetConversations.Args) :
  GetConversations.parse input = GetConversations.Valid args ->
  1 <= GetConversations.limit' args <= 100
  /\ GetConversations.limit' args
     = match GetConversations.limit input with Some n => n | None => 10 end
  /\ GetConversations.onlyUnresolved' args
     = match GetConversations.onlyUnresolved input with Some b => b | None => false end
  /\ GetConversations.inboxId' args = GetConversations.inboxId input
  /\ GetConversations.query' args = GetConversations.query input
  /\ status_string <$> GetConversations.status' args = GetConversations.status input.
Proof.
  unfold GetConversations.parse, GetConversations.parse_limit,
    GetConversations.parse_status.
  assert (Hstatus : forall name st,
             (if String.eqb name "open" then GetConversations.Valid (Some open)
              else if String.eqb name "archived" then GetConversations.Valid (Some archived)
              else if String.eqb name "deleted" then GetConversations.Valid (Some deleted)
              else if String.eqb name "spam" then GetConversations.Valid (Some spam)
              else GetConversations.Invalid GetConversations.invalid_enum_value)
             = GetConversations.Valid st ->
             status_string <$> st = Some name).
  { intros name st.
    destruct (String.eqb name "open") eqn:E1;
      [apply String.eqb_eq in E1; subst; now intros [= <-]|].
    destruct (String.eqb name "archived") eqn:E2;
      [apply String.eqb_eq in E2; subst; now intros [= <-]|].
    destruct (String.eqb name "deleted") eqn:E3;
      [apply String.eqb_eq in E3; subst; now intros [= <-]|].
    destruct (String.eqb name "spam") eqn:E4;
      [apply String.eqb_eq in E4; subst; now intros [= <-]|].
    discriminate. }
  destruct (GetConversations.limit input) as [n|].
  - destruct (n <? 1) eqn:Hlow; [discriminate|].
    destruct (100 <? n) eqn:Hhigh; [discriminate|].
    destruct (GetConversations.status input) as [name|].
    + match goal with |- context [match ?x with _ => _ end] => destruct x as [st|issue] eqn:Hst end;
        [|discriminate].
      apply Hstatus in Hst. intros [= <-]. cbn. repeat split; try lia. exact Hst.
    + intros [= <-]. cbn. repeat split; lia.
  - destruct (GetConversations.status input) as [name|].
    + match goal with |- context [match ?x with _ => _ end] => destruct x as [st|issue] eqn:Hst end;
        [|discriminate].
      apply Hstatus in Hst. intros [= <-]. cbn. repeat split; try lia. exact Hst.
    + intros [= <-]. cbn. repeat split; lia.
Qed.

(** X10. The schema of the tool: a call goes to the handler with a limit
    between 1 and 100, 10 when none is given, with [onlyUnresolved] false
    when not given, and with a status that is one of the four names; a call
    with another status is refused and nothing is asked of the network. *)
Theorem getConversations_schema :
  forall (input : GetConversations.Input),
    (forall args,
        GetConversations.parse input = GetConversations.Valid args ->
        1 <= GetConversations.limit' args <= 100
        /\ GetConversations.limit' args
           = match GetConversations.limit input with
             | Some n => n
             | None => 10
             end
        /\ GetConversations.onlyUnresolved' args
           = match GetConversations.onlyUnresolved input with
             | Some b => b
             | None => false
             end
        /\ status_string <$> GetConversations.status' args
           = GetConversations.status input)
    /\ (forall name (s : State),
          GetConversations.status input = Some name ->
          ~ In name ["open"; "archived"; "deleted"; "spam"] ->
          exists issue,
            GetConversations.getConversations w input s
            = (GetConversations.Rejected issue, s)).
Proof.
  intros input. split.
  - intros args Hparse.
    destruct (parse_Valid input args Hparse) as (H1 & H2 & H3 & _ & _ & H6).
    repeat split; auto; lia.
  - intros name s Hname Hnot.
    assert (Hparse : exists issue,
               GetConversations.parse input = GetConversations.Invalid issue).
    { unfold GetConversations.parse.
      destruct (GetConversations.parse_limit _) as [n|issue]; [|eauto].
      unfold GetConversations.parse_status. rewrite Hname.
      destruct (String.eqb name "open") eqn:E1;
        [apply String.eqb_eq in E1; subst; exfalso; apply Hnot; simpl; auto|].
      destruct (String.eqb name "archived") eqn:E2;
        [apply String.eqb_eq in E2; subst; exfalso; apply Hnot; simpl; auto|].
      destruct (String.eqb name "deleted") eqn:E3;
        [apply String.eqb_eq in E3; subst; exfalso; apply Hnot; simpl; auto|].
      destruct (String.eqb name "spam") eqn:E4;
        [apply String.eqb_eq in E4; subst; exfalso; apply Hnot; simpl; auto|].
      eauto. }
    destruct Hparse as [issue Hparse]. exists issue.
    unfold GetConversations.getConversations. now rewrite Hparse.
Qed.

Lemma handler_try_run (this : ref) (inbox : string) (args : GetConversations.Args)
    (s : State) :
  GetConversations.handler_try w this inbox args s
  = (let (r, s2) := listInboxMessages w this inbox (Some (fresh (dom (objects s))))
                      {| requests := requests s; clients := clients s;
                         objects := <[fresh (dom (objects s)) := tool_filter args]>
                                      (objects s) |} in
     (match r with
      | Ok result =>
          match GetConversations.result_text w result with
          | Ok text' =>
              Ok {| GetConversations.content :=
                      [ {| GetConversations.type := "text";
                           GetConversations.text := text' |} ] |}
          | Err e => Err e
          end
      | Err e => Err e
      end, s2)).
Proof.
  unfold GetConversations.handler_try, tool_filter.
  unfold bind at 1, alloc_object at 1.
  destruct args as [i l qy ou st];
    cbn [GetConversations.query' GetConversations.onlyUnresolved'
         GetConversations.status' GetConversations.limit'].
  destruct qy as [[|qc qr]|], ou, st as [st|];
    cbn [truthy_string];
    unfold bindR, bind, read_object, write_object, ret;
    cbn [requests clients objects];
    rewrite ?lookup_total_insert_eq, ?insert_insert_eq;
    unfold set_q, set_onlyUnresolved, set_status, params_of_limit;
    cbn [q page_token limit start end_ status onlyUnresolved].
  all: match goal with
         | |- context [listInboxMessages w ?t ?i ?p ?st] =>
             destruct (listInboxMessages w t i p st) as [[result|e] s2]
         end; [destruct (GetConversations.result_text w result)|]; reflexivity.
Qed.

(** How the handler runs once the environment has a token and the inbox is
    known: it calls [listInboxMessages] in [tool_state], then renders the
    result or reports the error. *)
Lemma handler_run (args : GetConversations.Args) (tok inbox : string) (s : State) :
  env w "FRONT_API_TOKEN" = Some tok ->
  tok <> EmptyString ->
  resolved_inbox w args = Some inbox ->
  inbox <> EmptyString ->
  GetConversations.handler w args s
  = (match fst (listInboxMessages w (fresh (dom (clients s))) inbox
                  (Some (fresh (dom (objects s)))) (tool_state tok args s)) with
     | Ok result =>
         match GetConversations.result_text w result with
         | Ok text' =>
             Ok {| GetConversations.content :=
                     [ {| GetConversations.type := "text";
                          GetConversations.text := text' |} ] |}
         | Err e => Err (tool_error e)
         end
     | Err e => Err (tool_error e)
     end,
     snd (listInboxMessages w (fresh (dom (clients s))) inbox
            (Some (fresh (dom (objects s)))) (tool_state tok args s))).
Proof.
  intros Htok Hne Hinbox Hine.
  unfold GetConversations.handler. rewrite Htok.
  destruct tok as [|c tok']; [congruence|]. cbn [truthy_string negb].
  unfold resolved_inbox in Hinbox. rewrite Hinbox.
  destruct inbox as [|c' inbox']; [congruence|]. cbn [truthy_string negb].
  unfold bindR at 1, bind at 1.
  rewrite (constructor_with_token w
             {| FrontClientOptions.token := Some (String c tok');
                FrontClientOptions.baseUrl := None |} (String c tok') s eq_refl)
    by discriminate.
  cbn [FrontClientOptions.baseUrl or_string].
  unfold bind at 1. rewrite handler_try_run. cbn [requests clients objects].
  fold (tool_state (String c tok') args s).
  destruct (listInboxMessages w _ _ _ (tool_state (String c tok') args s))
    as [[result|e] s2]; cbn [fst snd].
  - destruct (GetConversations.result_text w result); reflexivity.
  - reflexivity.
Qed.

Lemma getConversations_run (input : GetConversations.Input) (args : GetConversations.Args)
    (s : State) :
  GetConversations.parse input = GetConversations.Valid args ->
  GetConversations.getConversations w input s
  = (GetConversations.Handled (fst (GetConversations.handler w args s)),
     snd (GetConversations.handler w args s)).
Proof.
  intros Hparse. unfold GetConversations.getConversations. rewrite Hparse.
  unfold bind, ret. now destruct (GetConversations.handler w args s).
Qed.

Lemma tool_state_client (tok : string) (args : GetConversations.Args) (s : State) :
  clients (tool_state tok args s) !!! fresh (dom (clients s))
  = {| token := tok; baseUrl := default_baseUrl |}.
Proof. unfold tool_state. cbn [clients]. apply lookup_total_insert_eq. Qed.

Lemma tool_state_filter (tok : string) (args : GetConversations.Args) (s : State) :
  filter_of (Some (fresh (dom (objects s)))) (tool_state tok args s) = tool_filter args.
Proof. unfold tool_state, filter_of. cbn [objects]. apply lookup_total_insert_eq. Qed.

(** X11. Before it asks anything of the network, the handler of the tool
    needs the token of the environment, then an inbox, from the argument or
    from the environment; without one of them it fails with the message of
    the missing setting and leaves everything as it was. *)
Theorem getConversations_needs_configuration :
  forall (input : GetConversations.Input) (args : GetConversations.Args) (s : State),
    GetConversations.parse input = GetConversations.Valid args ->
    (truthy_string (env w "FRONT_API_TOKEN") = false ->
     GetConversations.getConversations w input s
     = (GetConversations.Handled
          (Err {| message := "FRONT_API_TOKEN environment variable is required" |}), s))
    /\ (truthy_string (env w "FRONT_API_TOKEN") = true ->
        truthy_string (resolved_inbox w args) = false ->
        GetConversations.getConversations w input s
        = (GetConversations.Handled
             (Err {| message := "inboxId parameter or DEFAULT_INBOX_ID environment "
                               ++ "variable is required" |}), s)).
Proof.
  intros input args s Hparse.
  rewrite (getConversations_run input args s Hparse).
  unfold GetConversations.handler, resolved_inbox. split.
  - intros ->. reflexivity.
  - intros -> Hinbox. cbn [negb].
    destruct (if truthy_string (GetConversations.inboxId' args)
              then GetConversations.inboxId' args
              else env w "DEFAULT_INBOX_ID") as [inbox|]; [|reflexivity].
    rewrite Hinbox. reflexivity.
Qed.

(** X12. With a token and an inbox, the first request of the tool is the
    conversation query of that inbox, sent with the token of the environment
    to the default base URL.  Its filter always has the [limit] of the call;
    its [q] is the query text when there is one, joined with the status:
    ["open"] when [onlyUnresolved] is set, whatever status the call names,
    and otherwise the status of the call. *)
Theorem getConversations_first_request :
  forall (input : GetConversations.Input) (args : GetConversations.Args)
         (tok inbox : string) (s : State),
    GetConversations.parse input = GetConversations.Valid args ->
    env w "FRONT_API_TOKEN" = Some tok ->
    tok <> EmptyString ->
    resolved_inbox w args = Some inbox ->
    inbox <> EmptyString ->
    let filter' := effective_filter (tool_filter args) in
    issued s (snd (GetConversations.getConversations w input s)) !! 0%nat
    = Some (request_of {| token := tok; baseUrl := "https://api2.frontapp.com" |} "GET"
              (conversations_path inbox filter') None)
    /\ URLSearchParams.getAll "limit" (conversations_queryParams filter')
       = [number_toString (GetConversations.limit' args)]
    /\ URLSearchParams.getAll "q" (conversations_queryParams filter')
       = match (if truthy_string (GetConversations.query' args)
                then GetConversations.query' args else None),
               (if GetConversations.onlyUnresolved' args then Some open
                else GetConversations.status' args) with
         | Some text', Some st => [text' ++ " AND " ++ statusQuery st]
         | Some text', None => [text']
         | None, Some st => [statusQuery st]
         | None, None => []
         end.
Proof.
  intros input args tok inbox s Hparse Htok Hne Hinbox Hine filter'.
  split; [|split].
  - rewrite (getConversations_run input args s Hparse). cbn [snd].
    rewrite (handler_run args tok inbox s Htok Hne Hinbox Hine). cbn [snd].
    assert (Hreq := listInboxMessages_requests w (fresh (dom (clients s))) inbox
                      (Some (fresh (dom (objects s)))) (tool_state tok args s)).
    rewrite tool_state_client, tool_state_filter in Hreq.
    change (requests (tool_state tok args s)) with (requests s) in Hreq.
    rewrite (issued_app _ _ _ Hreq). reflexivity.
  - destruct (parse_Valid input args Hparse) as (Hrange & _).
    unfold filter'. destruct args as [i l qy ou st].
    cbn [GetConversations.limit'] in *.
    destruct l as [|l|l]; [lia| |lia].
    destruct qy as [[|qc qr]|], ou, st as [st|]; reflexivity.
  - destruct (parse_Valid input args Hparse) as (Hrange & _).
    unfold filter'. destruct args as [i l qy ou st].
    cbn [GetConversations.limit'] in *.
    destruct l as [|l|l]; [lia| |lia].
    destruct qy as [[|qc qr]|], ou, st as [st|]; reflexivity.
Qed.

(** X13. Every request of the tool carries the token of the environment
    and goes to the default base URL. *)
Theorem getConversations_requests_authorized :
  forall (input : GetConversations.Input) (args : GetConversations.Args)
         (tok inbox : string) (s : State),
    GetConversations.parse input = GetConversations.Valid args ->
    env w "FRONT_API_TOKEN" = Some tok ->
    tok <> EmptyString ->
    resolved_inbox w args = Some inbox ->
    inbox <> EmptyString ->
    Forall (authorized tok "https://api2.frontapp.com")
      (issued s (snd (GetConversations.getConversations w input s))).
Proof.
  intros input args tok inbox s Hparse Htok Hne Hinbox Hine.
  rewrite (getConversations_run input args s Hparse). cbn [snd].
  rewrite (handler_run args tok inbox s Htok Hne Hinbox Hine). cbn [snd].
  destruct (operations_authorized w (fresh (dom (clients s))) (tool_state tok args s)
              inbox inbox (Some (fresh (dom (objects s))))) as (_ & _ & Hall).
  rewrite tool_state_client in Hall. exact Hall.
Qed.

(** X14. The handler reports the failure of the client under the prefix
    [Front API error: ]: the failure of the conversation listing, and any
    failure of [listInboxMessages]. *)
Theorem getConversations_reports_client_errors :
  forall (input : GetConversations.Input) (args : GetConversations.Args)
         (tok inbox : string) (s : State) (e : Error),
    GetConversations.parse input = GetConversations.Valid args ->
    env w "FRONT_API_TOKEN" = Some tok ->
    tok <> EmptyString ->
    resolved_inbox w args = Some inbox ->
    inbox <> EmptyString ->
    (conversation_outcome w {| token := tok; baseUrl := "https://api2.frontapp.com" |}
       (length (requests s)) inbox (effective_filter (tool_filter args)) = Err e ->
     fst (GetConversations.getConversations w input s)
     = GetConversations.Handled (Err {| message := "Front API error: " ++ message e |}))
    /\ (fst (listInboxMessages w (fresh (dom (clients s))) inbox
               (Some (fresh (dom (objects s)))) (tool_state tok args s)) = Err e ->
        fst (GetConversations.getConversations w input s)
        = GetConversations.Handled (Err {| message := "Front API error: " ++ message e |})).
Proof.
  intros input args tok inbox s e Hparse Htok Hne Hinbox Hine.
  rewrite (getConversations_run input args s Hparse). cbn [fst].
  rewrite (handler_run args tok inbox s Htok Hne Hinbox Hine). cbn [fst].
  split.
  - intros Hconv. rewrite listInboxMessages_outcome.
    rewrite tool_state_client, tool_state_filter.
    change (requests (tool_state tok args s)) with (requests s).
    change default_baseUrl with "https://api2.frontapp.com". rewrite Hconv. reflexivity.
  - intros ->. reflexivity.
Qed.

Lemma result_text_messages (msgs : list Message.t) :
  (Forall representable_date msgs ->
   sequence_results (List.map (GetConversations.message_json w) msgs)
   = Ok (List.map (tool_message w) msgs))
  /\ (~ Forall representable_date msgs ->
      sequence_results (List.map (GetConversations.message_json w) msgs)
      = Err {| message := "Invalid time value" |}).
Proof.
  induction msgs as [|msg msgs [IHok IHerr]].
  - split; [reflexivity|]. intros H. exfalso. apply H. constructor.
  - cbn [List.map sequence_results].
    unfold GetConversations.message_json at 1 3, GetConversations.date_toISOString.
    destruct (Z.abs (Message.created_at msg * 1000) <=? 8640000000000000) eqn:Hdate.
    + apply Z.leb_le in Hdate. split.
      * intros Hall. apply Forall_cons in Hall as [_ Hall]. now rewrite (IHok Hall).
      * intros Hnot. rewrite IHerr; [reflexivity|].
        intros Hall. apply Hnot. constructor; assumption.
    + apply Z.leb_gt in Hdate. split; [|reflexivity].
      intros Hall. apply Forall_cons in Hall as [Hmsg _].
      unfold representable_date in Hmsg. lia.
Qed.

(** X15. When the client succeeds, the tool answers with one text item: the
    JSON of the number of conversations and of one entry per message, in the
    order of the messages, provided every [created_at] is a date that
    JavaScript can represent; with one that is not, the tool fails instead,
    with the error of [toISOString] under the prefix [Front API error: ]. *)
Theorem getConversations_payload :
  forall (input : GetConversations.Input) (args : GetConversations.Args)
         (tok inbox : string) (s : State) (result : InboxMessages),
    GetConversations.parse input = GetConversations.Valid args ->
    env w "FRONT_API_TOKEN" = Some tok ->
    tok <> EmptyString ->
    resolved_inbox w args = Some inbox ->
    inbox <> EmptyString ->
    fst (listInboxMessages w (fresh (dom (clients s))) inbox
           (Some (fresh (dom (objects s)))) (tool_state tok args s)) = Ok result ->
    (Forall representable_date (messages result) ->
     fst (GetConversations.getConversations w input s)
     = GetConversations.Handled
         (Ok {| GetConversations.content :=
                  [ {| GetConversations.type := "text";
                       GetConversations.text :=
                         JSON_stringify
                           (JObj [ ("conversations",
                                    JNum (Z.of_nat (length (conversations result))));
                                   ("messages",
                                    JArr (List.map (tool_message w) (messages result))) ])
                    |} ] |}))
    /\ (~ Forall representable_date (messages result) ->
        fst (GetConversations.getConversations w input s)
        = GetConversations.Handled
            (Err {| message := "Front API error: Invalid time value" |})).
Proof.
  intros input args tok inbox s result Hparse Htok Hne Hinbox Hine Hrun.
  rewrite (getConversations_run input args s Hparse). cbn [fst].
  rewrite (handler_run args tok inbox s Htok Hne Hinbox Hine). cbn [fst].
  rewrite Hrun. unfold GetConversations.result_text.
  destruct (result_text_messages (messages result)) as [Hok Herr].
  split.
  - intros Hall. rewrite (Hok Hall). reflexivity.
  - intros Hnot. rewrite (Herr Hnot). reflexivity.
Qed.

End Tool.

Lemma getConversations_schema_witness :
  GetConversations.parse demo_tool_input = GetConversations.Valid demo_tool_args
  /\ 1 <= GetConversations.limit' demo_tool_args <= 100.
Proof.
  split; [reflexivity|].
  destruct (getConversations_schema (demo_tool_world false) demo_tool_input)
    as (Hvalid & _).
  apply (Hvalid demo_tool_args). reflexivity.
Defined.

Lemma getConversations_needs_configuration_witness :
  GetConversations.parse demo_tool_input = GetConversations.Valid demo_tool_args
  /\ truthy_string (env (demo_world false) "FRONT_API_TOKEN") = false
  /\ GetConversations.getConversations (demo_world false) demo_tool_input initial_state
     = (GetConversations.Handled
          (Err {| message := "FRONT_API_TOKEN environment variable is required" |}),
        initial_state).
Proof.
  split; [reflexivity|]. split; [reflexivity|].
  destruct (getConversations_needs_configuration (demo_world false) demo_tool_input
              demo_tool_args initial_state) as (Htoken & _); [reflexivity|].
  apply Htoken. reflexivity.
Defined.

Lemma getConversations_first_request_witness :
  GetConversations.parse demo_tool_input = GetConversations.Valid demo_tool_args
  /\ env (demo_tool_world false) "FRONT_API_TOKEN" = Some "secret"
  /\ resolved_inbox (demo_tool_world false) demo_tool_args = Some "inb_1"
  /\ issued initial_state
       (snd (GetConversations.getConversations (demo_tool_world false) demo_tool_input
               initial_state)) !! 0%nat
     = Some (request_of {| token := "secret"; baseUrl := "https://api2.frontapp.com" |}
               "GET"
               (conversations_path "inb_1" (effective_filter (tool_filter demo_tool_args)))
               None)
  /\ conversations_path "inb_1" (effective_filter (tool_filter demo_tool_args))
     = "/inboxes/inb_1/conversations?q=invoice+AND+status%3A%22open%22&limit=2".
Proof.
  split; [reflexivity|]. split; [reflexivity|]. split; [reflexivity|].
  split; [|reflexivity].
  apply (getConversations_first_request (demo_tool_world false) demo_tool_input
           demo_tool_args "secret" "inb_1" initial_state);
    [reflexivity | reflexivity | discriminate | reflexivity | discriminate].
Defined.

Lemma getConversations_requests_authorized_witness :
  GetConversations.parse demo_tool_input = GetConversations.Valid demo_tool_args
  /\ Forall (authorized "secret" "https://api2.frontapp.com")
       (issued initial_state
          (snd (GetConversations.getConversations (demo_tool_world false) demo_tool_input
                  initial_state))).
Proof.
  split; [reflexivity|].
  apply (getConversations_requests_authorized (demo_tool_world false) demo_tool_input
           demo_tool_args "secret" "inb_1" initial_state);
    [reflexivity | reflexivity | discriminate | reflexivity | discriminate].
Defined.

Lemma getConversations_reports_client_errors_witness :
  conversation_outcome (demo_tool_world false)
    {| token := "secret"; baseUrl := "https://api2.frontapp.com" |}
    (length (requests demo_state_exhausted)) "inb_1"
    (effective_filter (tool_filter demo_tool_args))
  = Err {| message :=
             "request to https://api2.frontapp.com/inboxes/inb_1/conversations"
             ++ "?q=invoice+AND+status%3A%22open%22&limit=2"
             ++ " failed, reason: ECONNREFUSED" |}
  /\ fst (GetConversations.getConversations (demo_tool_world false) demo_tool_input
            demo_state_exhausted)
     = GetConversations.Handled
         (Err {| message :=
                   "Front API error: request to "
                   ++ "https://api2.frontapp.com/inboxes/inb_1/conversations"
                   ++ "?q=invoice+AND+status%3A%22open%22&limit=2"
                   ++ " failed, reason: ECONNREFUSED" |}).
Proof.
  split; [vm_compute; reflexivity|].
  destruct (getConversations_reports_client_errors (demo_tool_world false)
              demo_tool_input demo_tool_args "secret" "inb_1" demo_state_exhausted
              {| message :=
                   "request to https://api2.frontapp.com/inboxes/inb_1/conversations"
                   ++ "?q=invoice+AND+status%3A%22open%22&limit=2"
                   ++ " failed, reason: ECONNREFUSED" |})
    as (Hconversations & _);
    [reflexivity | reflexivity | discriminate | reflexivity | discriminate |].
  apply Hconversations. vm_compute; reflexivity.
Defined.

Lemma getConversations_payload_witness :
  fst (listInboxMessages (demo_tool_world false) (fresh (dom (clients initial_state)))
         "inb_1" (Some (fresh (dom (objects initial_state))))
         (tool_state "secret" demo_tool_args initial_state))
  = Ok demo_result
  /\ Forall representable_date (messages demo_result)
  /\ exists text',
       fst (GetConversations.getConversations (demo_tool_world false) demo_tool_input
              initial_state)
       = GetConversations.Handled
           (Ok {| GetConversations.content :=
                    [ {| GetConversations.type := "text";
                         GetConversations.text := text' |} ] |}).
Proof.
  assert (Hdates : Forall representable_date (messages demo_result)).
  { repeat constructor; unfold representable_date; simpl; lia. }
  split; [vm_compute; reflexivity|]. split; [exact Hdates|].
  destruct (getConversations_payload (demo_tool_world false) demo_tool_input
              demo_tool_args "secret" "inb_1" initial_state demo_result)
    as (Hpayload & _);
    [reflexivity | reflexivity | discriminate | reflexivity | discriminate
    | vm_compute; reflexivity |].
  eexists. apply Hpayload. exact Hdates.
Defined.
